(** * The Field class of dist/fields.js

    A shallow embedding of [class Field] and [class InvalidFieldError]
    (dist/fields.js).  A Field is one typed, change-tracked and validatable
    slot of a Document.  The class is written against capabilities that live
    outside this file of the repository: the [typeable] package ([cast],
    [isAbsent], ...), [deep-equal], [utils.cloneData], the validator of the
    owning Document and the Document class itself.  They are gathered in the
    [Runtime] interface below; every method of Field is a program in a state
    and exception monad over them.

    Conventions.  Execution is sequential: an async function runs to its end
    and hands back its promise settled.  The [get] and [set] transforms of a
    field definition are functions of their receiver and argument.  The
    other objects (nested Documents, validators, default generators) act on
    their own part of the heap. *)

From Stdlib Require Import ZArith List Bool Lia.
From stdpp Require Import base strings gmap.
Import ListNotations.

Local Open Scope string_scope.

(** ** JavaScript values *)

(** Identity of a Document or Schema object. *)
Definition ref := nat.

Set Warnings "-register-all".

(** The values a field, a type descriptor or a validation result can be.
    Arrays and plain objects are never updated in place by Field, so they are
    kept as immutable trees; Documents are mutable objects and are held by
    reference. *)
Inductive jsval : Type :=
| VUndefined
| VNull
| VBoolean (b : bool)
| VNumber (n : Z)
| VString (s : string)
| VArray (items : list jsval)
| VObject (props : list (string * jsval))
| VSchema (s : ref)
| VDocument (d : ref)
| VInvalidFieldError (path errors related message code : jsval).

(** What a call can throw (or an asynchronous call reject with). *)
Inductive exn : Type :=
| TypeError (msg : string)
| Thrown (v : jsval).

Inductive result (A : Type) : Type :=
| Ok (a : A)
| Throw (e : exn).
Arguments Ok {A} a.
Arguments Throw {A} e.

(** The settled state of the promise an async function returns. *)
Inductive promise (A : Type) : Type :=
| Resolved (a : A)
| Rejected (e : exn).
Arguments Resolved {A} a.
Arguments Rejected {A} e.

(** ** State and exception monad *)

Definition M (S A : Type) : Type := S -> result A * S.

Definition ret {S A} (a : A) : M S A := fun s => (Ok a, s).

Definition throw {S A} (e : exn) : M S A := fun s => (Throw e, s).

Definition bind {S A B} (m : M S A) (k : A -> M S B) : M S B :=
  fun s =>
    match m s with
    | (Ok a, s') => k a s'
    | (Throw e, s') => (Throw e, s')
    end.

Notation "x <- m ;; k" := (bind m (fun x => k))
  (at level 100, m at next level, right associativity).
Notation "m ;;; k" := (bind m (fun _ => k))
  (at level 100, right associativity).

(** [for (let v of l) items.push(yield f(v))], and [l.forEach(f)]. *)
Fixpoint mapM {S A B} (f : A -> M S B) (l : list A) : M S (list B) :=
  match l with
  | [] => ret []
  | a :: l' => b <- f a ;; bs <- mapM f l' ;; ret (b :: bs)
  end.

Fixpoint forEach {S A} (f : A -> M S unit) (l : list A) : M S unit :=
  match l with
  | [] => ret tt
  | a :: l' => f a ;;; forEach f l'
  end.

(** [asyncToGenerator(function* () { body })()]: the body runs and the call
    returns a promise, resolved with the value the body returns and rejected
    with what it throws.  The model is sequential: the body runs to its end
    before the caller goes on. *)
Definition asyncToGenerator {S A} (body : M S A) : M S (promise A) :=
  fun s =>
    match body s with
    | (Ok a, s') => (Ok (Resolved a), s')
    | (Throw e, s') => (Ok (Rejected e), s')
    end.

(** [yield p] inside such a body: the value of a resolved promise; a rejected
    promise throws at the [yield]. *)
Definition yield {S A} (p : M S (promise A)) : M S A :=
  fun s =>
    match p s with
    | (Ok (Resolved a), s') => (Ok a, s')
    | (Ok (Rejected e), s') => (Throw e, s')
    | (Throw e, s') => (Throw e, s')
    end.

(** ** Helpers of the language and of [typeable] that only look at the shape
    of a value *)

(** [Array.isArray]. *)
Definition isArray (v : jsval) : bool :=
  match v with VArray _ => true | _ => false end.

(** [v instanceof Schema]. *)
Definition instanceof_Schema (v : jsval) : bool :=
  match v with VSchema _ => true | _ => false end.

(** JavaScript truthiness, as in [v ? a : b] and [v && w]. *)
Definition truthy (v : jsval) : bool :=
  match v with
  | VUndefined | VNull => false
  | VBoolean b => b
  | VNumber n => negb (n =? 0)%Z
  | VString s => negb (String.eqb s "")
  | _ => true
  end.

(** [type[0]]. *)
Definition index0 (v : jsval) : jsval :=
  match v with
  | VArray (x :: _) => x
  | _ => VUndefined
  end.

Fixpoint assoc (key : string) (props : list (string * jsval)) : jsval :=
  match props with
  | [] => VUndefined
  | (k, v) :: props' => if String.eqb k key then v else assoc key props'
  end.

(** ** The capabilities Field is written against *)

(** A coercion function of the type table handed to [cast]
    ([options.types]): it may build objects, so it acts on the world. *)
Definition resolver (W : Type) : Type := jsval -> M W jsval.

(** [W] is the part of the JavaScript heap that is not the field at hand:
    the nested Documents, what the validators and generators look at.  The
    operations are those dist/fields.js imports or calls on other objects;
    they read and write [W] and do not reach the Field object itself.  An
    asynchronous operation returns the promise as settled. *)
Class Runtime : Type := {
  W : Type;
  (** typeable: [isAbsent(v)]; [isPresent] is its negation. *)
  isAbsent : jsval -> bool;
  (** typeable: [cast(value, type, options)], with [options.types]. *)
  cast : jsval -> jsval -> gmap string (resolver W) -> M W jsval;
  (** deep-equal: [deepEqual(a, b)]; it reads the objects compared. *)
  deepEqual : W -> jsval -> jsval -> bool;
  (** utils: [cloneData(data)]. *)
  cloneData : jsval -> M W jsval;
  (** [$document.$validator.validate(value, rules)], asynchronous: the list
      of issues of the failing rules. *)
  validator_validate : jsval -> jsval -> M W (promise (list jsval));
  (** [new $document.constructor(a, b, c)], by position. *)
  Document_constructor : jsval -> jsval -> jsval -> M W jsval;
  (** [d.validate()] of a Document [d], asynchronous. *)
  Document_validate : ref -> M W (promise jsval);
  (** [d.commit()] of a Document [d]. *)
  Document_commit : ref -> M W unit
}.

Definition isPresent `{Runtime} (v : jsval) : bool := negb (isAbsent v).

(** ** Schema, Document and Field objects *)

(** [defaultValue] of a field definition: a literal, or a function
    ([isFunction] tells them apart).  A generator may be impure (a clock, a
    counter): it acts on the world. *)
Inductive default_definition `{Runtime} : Type :=
| Literal (v : jsval)
| Function (g : jsval -> M W jsval).

(** One entry of [$schema.fields].  [get] and [set] are transforms called
    with the owning Document as receiver, here their first argument; they
    are taken to be functions of receiver and argument.  [validate] is the
    rule list, which only the validator reads. *)
Record FieldDefinition `{Runtime} : Type := {
  def_type : jsval;
  def_get : option (jsval -> jsval -> jsval);
  def_set : option (jsval -> jsval -> jsval);
  def_defaultValue : default_definition;
  def_validate : jsval
}.

(** The owning Document, as far as Field reads it: its identity and
    [$schema.fields].  ([$schema.typeOptions] is assigned to by [_cast] and
    lives in the heap below.) *)
Record Document `{Runtime} : Type := {
  self : ref;
  dollar_schema_fields : gmap string FieldDefinition
}.

(** The own properties of a Field object: [$document] and [$name] are
    read-only, [_value] and [_initialValue] writable. *)
Record Field `{Runtime} : Type := {
  dollar_document : Document;
  dollar_name : string;
  _value : jsval;
  _initialValue : jsval
}.

(** What the methods of a field read and write: the field itself ([this]),
    [this.$document.$schema.typeOptions.types], and the world. *)
Record heap `{Runtime} : Type := {
  this : Field;
  typeOptions_types : gmap string (resolver W);
  world : W
}.

Section Field.
Context `{RT : Runtime}.

Definition get_this : M heap Field := fun h => (Ok (this h), h).

Definition get_types : M heap (gmap string (resolver W)) :=
  fun h => (Ok (typeOptions_types h), h).

Definition lift {A} (m : M W A) : M heap A :=
  fun h =>
    let (r, w) := m (world h) in
    (r, {| this := this h; typeOptions_types := typeOptions_types h; world := w |}).

Definition write_value (v : jsval) : M heap unit :=
  fun h =>
    (Ok tt,
     {| this := {| dollar_document := dollar_document (this h);
                   dollar_name := dollar_name (this h);
                   _value := v;
                   _initialValue := _initialValue (this h) |};
        typeOptions_types := typeOptions_types h;
        world := world h |}).

Definition write_initialValue (v : jsval) : M heap unit :=
  fun h =>
    (Ok tt,
     {| this := {| dollar_document := dollar_document (this h);
                   dollar_name := dollar_name (this h);
                   _value := _value (this h);
                   _initialValue := v |};
        typeOptions_types := typeOptions_types h;
        world := world h |}).

Definition write_types (t : gmap string (resolver W)) : M heap unit :=
  fun h => (Ok tt, {| this := this h; typeOptions_types := t; world := world h |}).

(** [this.<key>] for an own data property of the Field object; a key the
    object does not have reads as [undefined].  (The accessors and methods
    of the class are the definitions below.) *)
Definition own_property (f : Field) (key : string) : jsval :=
  if String.eqb key "$document" then VDocument (self (dollar_document f))
  else if String.eqb key "$name" then VString (dollar_name f)
  else if String.eqb key "_value" then _value f
  else if String.eqb key "_initialValue" then _initialValue f
  else VUndefined.

(** [this.$document.$schema.fields[this.$name]], then read of one of its
    properties: a missing entry makes that read throw. *)
Definition definition : M heap FieldDefinition :=
  f <- get_this ;;
  match dollar_schema_fields (dollar_document f) !! dollar_name f with
  | Some d => ret d
  | None => throw (TypeError "Cannot read property of undefined")
  end.

(** [t.call(this.$document, value)] when the transform [t] is given. *)
Definition transform (t : option (jsval -> jsval -> jsval)) (f : Field)
    (v : jsval) : jsval :=
  match t with
  | Some g => g (own_property f "$document") v
  | None => v
  end.

(** *** [get value()] *)
Definition get_value : M heap jsval :=
  d <- definition ;;
  f <- get_this ;;
  let value := _value f in
  ret (transform (def_get d) f value).

(** The [Schema] entry [_cast] puts into [options.types]:
    [value => { if (isArray(type)) type = type[0];
                return new this.$document.constructor(type, value, this.$document) }].
    [type] is the variable of [_cast] the closure captures.  For a type
    whose first element is not an array itself (a scalar name, a Schema, a
    one-element array of these, the empty array) the assignment changes
    nothing after the first call, and the closure is this function; for an
    array of arrays this is its first call. *)
Definition Schema_resolver (f : Field) (type : jsval) : resolver W :=
  fun value =>
    let type := if isArray type then index0 type else type in
    Document_constructor type value (own_property f "$document").

(** *** [_cast(value, type)].  The table is assigned, then [cast] is called
    with it.  What happens to the table while [cast] runs is not followed:
    the Fields of a nested Document built over the same schema coerce their
    defaults and assign the table again. *)
Definition _cast (value type : jsval) : M heap jsval :=
  f <- get_this ;;
  types <- get_types ;;
  write_types (<["Schema" := Schema_resolver f type]> types) ;;;
  options_types <- get_types ;;
  lift (cast value type options_types).

(** *** [set value(value)] *)
Definition set_value (value : jsval) : M heap unit :=
  d <- definition ;;
  value <- _cast value (def_type d) ;;
  f <- get_this ;;
  let value := transform (def_set d) f value in
  write_value value.

(** *** [get defaultValue()] *)
Definition get_defaultValue : M heap jsval :=
  d <- definition ;;
  f <- get_this ;;
  value <- match def_defaultValue d with
           | Function defaultValue => lift (defaultValue (own_property f "_document"))
           | Literal defaultValue => ret defaultValue
           end ;;
  value <- _cast value (def_type d) ;;
  ret (transform (def_set d) f value).

(** *** [get initialValue()] *)
Definition get_initialValue : M heap jsval :=
  f <- get_this ;; ret (_initialValue f).

(** [this] becomes a new object with [$document] and [$name] defined; the
    two other properties are not defined yet and read as [undefined]. *)
Definition new_object (document : Document) (name : string) : M heap unit :=
  fun h =>
    (Ok tt,
     {| this := {| dollar_document := document; dollar_name := name;
                   _value := VUndefined; _initialValue := VUndefined |};
        typeOptions_types := typeOptions_types h;
        world := world h |}).

(** *** [constructor(document, name)]: the four [defineProperty] calls. *)
Definition constructor (document : Document) (name : string) : M heap Field :=
  new_object document name ;;;
  v <- get_defaultValue ;;
  write_value v ;;;
  f <- get_this ;;
  write_initialValue (_value f) ;;;
  get_this.

(** *** [reset()] *)
Definition reset : M heap Field :=
  v <- get_defaultValue ;;
  set_value v ;;;
  get_this.

(** *** [clear()] *)
Definition clear : M heap Field :=
  set_value VNull ;;;
  get_this.

(** [data.commit], read as a condition, and [data.commit()].  A Document has
    the method; a plain object may have a property of that name, which is
    not callable. *)
Definition commit_property (data : jsval) : jsval :=
  match data with
  | VDocument _ => VBoolean true
  | VObject props => assoc "commit" props
  | _ => VUndefined
  end.

Definition call_commit (data : jsval) : M W unit :=
  match data with
  | VDocument d => Document_commit d
  | _ => throw (TypeError "data.commit is not a function")
  end.

(** *** [_commitRelated(data)] *)
Fixpoint _commitRelated (data : jsval) : M W unit :=
  if truthy data && truthy (commit_property data) then call_commit data
  else
    match data with
    | VArray items =>
        (fix each (l : list jsval) : M W unit :=
           match l with
           | [] => ret tt
           | d :: l' => _commitRelated d ;;; each l'
           end) items
    | _ => ret tt
    end.

(** *** [commit()] *)
Definition commit : M heap Field :=
  v <- get_value ;;
  lift (_commitRelated v) ;;;
  v <- get_value ;;
  c <- lift (cloneData v) ;;
  write_initialValue c ;;;
  get_this.

(** *** [rollback()] *)
Definition rollback : M heap Field :=
  v <- get_initialValue ;;
  set_value v ;;;
  get_this.

(** *** [equals(data)] *)
Definition equals (data : jsval) : M heap bool :=
  v <- get_value ;;
  fun h => (Ok (deepEqual (world h) v data), h).

(** *** [isChanged()] *)
Definition isChanged : M heap bool :=
  v <- get_initialValue ;;
  b <- equals v ;;
  ret (negb b).

(** *** [class InvalidFieldError]: [new InvalidFieldError(...args)].  An
    argument that is missing or [undefined] takes its default. *)
Definition argument (i : nat) (default : jsval) (arguments : list jsval) : jsval :=
  match nth i arguments VUndefined with
  | VUndefined => default
  | a => a
  end.

Definition InvalidFieldError (arguments : list jsval) : jsval :=
  let path := argument 0 VNull arguments in
  let errors := argument 1 (VArray []) arguments in
  let related := argument 2 (VArray []) arguments in
  let message := argument 3 (VString "Field validation failed") arguments in
  let code := argument 4 (VNumber 422) arguments in
  VInvalidFieldError path errors related message code.

(** *** [createInvalidFieldError(path, errors, related)] *)
Definition createInvalidFieldError (path errors related : jsval) : jsval :=
  InvalidFieldError [path; errors; related].

(** [v.validate()]: only a Document has the method. *)
Definition call_validate (v : jsval) : M heap (promise jsval) :=
  match v with
  | VDocument d => lift (Document_validate d)
  | _ => throw (TypeError "validate is not a function")
  end.

(** *** [_validateValue(value)] *)
Definition _validateValue (value : jsval) : M heap (promise (list jsval)) :=
  asyncToGenerator (
    d <- definition ;;
    let validate := def_validate d in
    yield (lift (validator_validate value validate))).

(** [for (let v of value)]. *)
Definition elements (v : jsval) : list jsval :=
  match v with VArray items => items | _ => [] end.

(** *** [_validateRelated(value)] *)
Definition _validateRelated (value : jsval) : M heap (promise jsval) :=
  asyncToGenerator (
    d <- definition ;;
    let type := def_type d in
    if isPresent value && instanceof_Schema type then
      yield (call_validate value)
    else if isArray value && isArray type then
      items <- mapM (fun v =>
                 if instanceof_Schema (index0 type) then
                   if truthy v then yield (call_validate v) else ret VUndefined
                 else
                   errors <- yield (_validateValue v) ;; ret (VArray errors))
               (elements value) ;;
      ret (VArray items)
    else ret (VArray [])).

(** *** [_isRelatedValid(related)]: [related.every(v => isArray(v) ?
    this._isRelatedValid(v) : isAbsent(v))].  [every_item] is the callback;
    [every] is missing on a value that is not an array. *)
Fixpoint every_item (v : jsval) : bool :=
  match v with
  | VArray items => forallb every_item items
  | _ => isAbsent v
  end.

Definition _isRelatedValid (related : jsval) : M heap bool :=
  match related with
  | VArray items => ret (forallb every_item items)
  | _ => throw (TypeError "related.every is not a function")
  end.

(** *** [validate()].  [||] evaluates its right operand only when the left
    one is false. *)
Definition validate : M heap (promise jsval) :=
  asyncToGenerator (
    f <- get_this ;;
    let path := own_property f "$name" in
    v <- get_value ;;
    errors <- yield (_validateValue v) ;;
    v <- get_value ;;
    related <- yield (_validateRelated v) ;;
    hasError <- (if (0 <? length errors)%nat then ret true
                 else valid <- _isRelatedValid related ;; ret (negb valid)) ;;
    if (hasError : bool) then
      ret (createInvalidFieldError path (VArray errors) related)
    else ret VUndefined).

(** *** [isValid()] *)
Definition isValid : M heap (promise bool) :=
  asyncToGenerator (
    r <- yield validate ;;
    ret (isAbsent r)).

End Field.

(** ** Relations between the heap before and after a call *)

(** [frame R m]: whatever [m] does and however it ends, the heap it leaves
    is [R]-related to the one it started in. *)
Definition frame `{Runtime} {A} (R : heap -> heap -> Prop) (m : M heap A) : Prop :=
  forall h, R h (snd (m h)).

(** The Field object is the same, with all its own properties. *)
Definition same_this `{Runtime} (h h' : heap) : Prop := this h' = this h.

(** [_initialValue] is the same. *)
Definition same_initialValue `{Runtime} (h h' : heap) : Prop :=
  _initialValue (this h') = _initialValue (this h).

(** The field is the same slot of the same Document, with the same
    committed value. *)
Definition same_slot `{Runtime} (h h' : heap) : Prop :=
  dollar_document (this h') = dollar_document (this h) /\
  dollar_name (this h') = dollar_name (this h) /\
  _initialValue (this h') = _initialValue (this h).

(** ** Induction on values, through arrays and objects *)

Section jsval_induction.
Variable P : jsval -> Prop.
Hypothesis P_undefined : P VUndefined.
Hypothesis P_null : P VNull.
Hypothesis P_boolean : forall b, P (VBoolean b).
Hypothesis P_number : forall n, P (VNumber n).
Hypothesis P_string : forall s, P (VString s).
Hypothesis P_array : forall items, Forall P items -> P (VArray items).
Hypothesis P_object : forall props, Forall (fun kv => P (snd kv)) props -> P (VObject props).
Hypothesis P_schema : forall s, P (VSchema s).
Hypothesis P_document : forall d, P (VDocument d).
Hypothesis P_error : forall path errors related message code,
  P path -> P errors -> P related -> P message -> P code ->
  P (VInvalidFieldError path errors related message code).

Fixpoint jsval_induction (v : jsval) : P v :=
  match v with
  | VUndefined => P_undefined
  | VNull => P_null
  | VBoolean b => P_boolean b
  | VNumber n => P_number n
  | VString s => P_string s
  | VArray items =>
      P_array items
        ((fix all (l : list jsval) : Forall P l :=
            match l with
            | [] => @List.Forall_nil _ P
            | x :: l' => @List.Forall_cons _ P x l' (jsval_induction x) (all l')
            end) items)
  | VObject props =>
      P_object props
        ((fix all (l : list (string * jsval)) : Forall (fun kv => P (snd kv)) l :=
            match l with
            | [] => @List.Forall_nil _ _
            | kv :: l' =>
                @List.Forall_cons _ (fun kv => P (snd kv)) kv l'
                  (jsval_induction (snd kv)) (all l')
            end) props)
  | VSchema s => P_schema s
  | VDocument d => P_document d
  | VInvalidFieldError path errors related message code =>
      P_error path errors related message code
        (jsval_induction path) (jsval_induction errors)
        (jsval_induction related) (jsval_induction message)
        (jsval_induction code)
  end.

End jsval_induction.

(** ** What the specification says, in its own words *)

Section Specified.
Context `{RT : Runtime}.

(** The nested Documents reachable from a value: the value itself when it is
    a Document, the elements of an array of them, in order. *)
Fixpoint nested_documents (v : jsval) : list ref :=
  match v with
  | VDocument d => [d]
  | VArray items => flat_map nested_documents items
  | _ => []
  end.

(** [commit()]: "recursively commits any nested Document or array of nested
    Documents reachable from the current value, then snapshots
    [initialValue = deepCopy(value)]". *)
Definition commit_as_specified : M heap Field :=
  v <- get_value ;;
  lift (forEach Document_commit (nested_documents v)) ;;;
  v <- get_value ;;
  c <- lift (cloneData v) ;;
  write_initialValue c ;;;
  get_this.

(** No plain object in the value, looking through arrays, has a property
    [commit] that reads as true. *)
Fixpoint plain_objects_lack_commit (v : jsval) : bool :=
  match v with
  | VObject props => negb (truthy (assoc "commit" props))
  | VArray items => forallb plain_objects_lack_commit items
  | _ => true
  end.

(** The related results of a value, by cases: an array under an array type,
    element by element in order (the [validate()] result of each element
    Document and [undefined] for each null element when the element type is
    a Schema, the issues of the element under the field's own rule list
    otherwise); the [validate()] result of a present nested Document under a
    Schema type; nothing in all other cases. *)
Definition related_as_specified (value : jsval) : M heap (promise jsval) :=
  asyncToGenerator (
    d <- definition ;;
    match value, def_type d with
    | VArray items, VArray elementType =>
        results <- mapM (fun v =>
                     if instanceof_Schema (index0 (VArray elementType)) then
                       match v with
                       | VDocument e => yield (lift (Document_validate e))
                       | _ => ret VUndefined
                       end
                     else
                       issues <- yield (lift (validator_validate v (def_validate d))) ;;
                       ret (VArray issues))
                   items ;;
        ret (VArray results)
    | VDocument nested, VSchema _ =>
        if isPresent value then yield (lift (Document_validate nested))
        else ret (VArray [])
    | _, _ => ret (VArray [])
    end).

(** What a field of the declared [type] holds after coercion: under a Schema
    type a Document or an absent value, and in an array under an array of a
    Schema, Documents and null (or undefined) slots. *)
Definition holds_documents (type value : jsval) : bool :=
  match type, value with
  | VSchema _, VDocument _ => true
  | VSchema _, _ => isAbsent value
  | VArray (VSchema _ :: _), VArray items =>
      forallb (fun v => match v with
                        | VDocument _ | VNull | VUndefined => true
                        | _ => false
                        end) items
  | _, _ => true
  end.

End Specified.

(** Structural equality of two values. *)
Fixpoint jsval_eqb (a b : jsval) : bool :=
  match a, b with
  | VUndefined, VUndefined => true
  | VNull, VNull => true
  | VBoolean x, VBoolean y => Bool.eqb x y
  | VNumber x, VNumber y => (x =? y)%Z
  | VString x, VString y => String.eqb x y
  | VArray l, VArray l' =>
      (fix all (l l' : list jsval) : bool :=
         match l, l' with
         | [], [] => true
         | x :: l, y :: l' => jsval_eqb x y && all l l'
         | _, _ => false
         end) l l'
  | VObject l, VObject l' =>
      (fix all (l l' : list (string * jsval)) : bool :=
         match l, l' with
         | [], [] => true
         | (k, x) :: l, (k', y) :: l' => String.eqb k k' && jsval_eqb x y && all l l'
         | _, _ => false
         end) l l'
  | VSchema x, VSchema y => Nat.eqb x y
  | VDocument x, VDocument y => Nat.eqb x y
  | VInvalidFieldError p e r m c, VInvalidFieldError p' e' r' m' c' =>
      jsval_eqb p p' && jsval_eqb e e' && jsval_eqb r r' && jsval_eqb m m'
      && jsval_eqb c c'
  | _, _ => false
  end.

(** ** A small runtime

    One instance of the capabilities, to run the methods on concrete fields.
    The world is the journal of what was asked of the other objects, and the
    list of the Documents that do not validate. *)
Module Example.

(** Modelled from the spec: the constructor of the Document class,
    [new Document(rawData, schemaOrConfig, parentDocument?)] (raw data
    first, schema second, parent third).  A construction records what the
    call bound each parameter to. *)
Record construction : Type := {
  rawData : jsval;
  schemaOrConfig : jsval;
  parentDocument : jsval
}.

Inductive event : Type :=
| Constructed (d : ref) (c : construction)
| Committed (d : ref)
| Validated (d : ref)
| Generated (argument : jsval).

Record environment : Type := {
  journal : list event;
  invalid : list ref
}.

Definition record (e : event) : M environment unit :=
  fun w => (Ok tt, {| journal := journal w ++ [e]; invalid := invalid w |}).

(** Absent values, after typeable's [isAbsent]: undefined, null, the empty
    string, the empty array and the object without keys. *)
Definition absent (v : jsval) : bool :=
  match v with
  | VUndefined | VNull | VString "" | VArray [] | VObject [] => true
  | _ => false
  end.

(** typeable's [cast], for what the fields below need: undefined and null
    give null; a Schema type goes through the [Schema] entry of the table;
    an array type coerces every element, keeping null slots; the empty
    array type and the scalar types pass the value through (the conversions
    between scalars are left out). *)
Definition cast_one (v type : jsval) (types : gmap string (resolver environment)) :
    M environment jsval :=
  match v with
  | VUndefined | VNull => ret VNull
  | _ =>
      match type, types !! "Schema" with
      | VSchema _, Some resolve => resolve v
      | _, _ => ret v
      end
  end.

Definition cast_value (v type : jsval) (types : gmap string (resolver environment)) :
    M environment jsval :=
  match v with
  | VUndefined | VNull => ret VNull
  | _ =>
      match type with
      | VArray [] => ret v
      | VArray (elementType :: _) =>
          items <- mapM (fun x => cast_one x elementType types)
                     (match v with VArray items => items | _ => [v] end) ;;
          ret (VArray items)
      | _ => cast_one v type types
      end
  end.

(** The issue of the one rule known here, [presence]. *)
Definition is_required : jsval :=
  VObject [("validator", VString "presence"); ("message", VString "is required");
           ("code", VNumber 422)].

Definition issues (v rules : jsval) : M environment (promise (list jsval)) :=
  match rules with
  | VArray (VString rule :: _) =>
      ret (Resolved (if String.eqb rule "presence" && absent v
                     then [is_required] else []))
  | _ => ret (Resolved [])
  end.

(** The new Document takes the next free identity. *)
Definition new_Document (a b c : jsval) : M environment jsval :=
  fun w =>
    let d := 100 + length (journal w) in
    (record (Constructed d {| rawData := a; schemaOrConfig := b; parentDocument := c |}) ;;;
     ret (VDocument d)) w.

Definition validate_Document (d : ref) : M environment (promise jsval) :=
  record (Validated d) ;;;
  fun w =>
    (Ok (Resolved (if existsb (Nat.eqb d) (invalid w)
                   then VArray [VString "invalid"] else VArray [])), w).

Definition commit_Document (d : ref) : M environment unit := record (Committed d).

(** Values are compared structurally; a copy of plain data is the same
    tree, and a Document reference is copied as the reference. *)
#[export] Instance runtime : Runtime := {|
  W := environment;
  isAbsent := absent;
  cast := cast_value;
  deepEqual := fun _ a b => jsval_eqb a b;
  cloneData := fun v => ret v;
  validator_validate := issues;
  Document_constructor := new_Document;
  Document_validate := validate_Document;
  Document_commit := commit_Document
|}.

(** [`${value}-set`], on the values used here. *)
Definition append_set (_ v : jsval) : jsval :=
  match v with
  | VString s => VString (s ++ "-set")
  | VNull => VString "null-set"
  | VUndefined => VString "undefined-set"
  | _ => v
  end.

(** A generator that tells whether it was handed a Document. *)
Definition tells_argument (argument : jsval) : M environment jsval :=
  record (Generated argument) ;;;
  ret (match argument with
       | VDocument _ => VString "document"
       | _ => VString "no document"
       end).

Definition bookSchema : jsval := VSchema 1.

(** The fields of the user document: [name], a required string; [nick], a
    string with a [set] transform and the default ['100']; [label], with a
    generated default; [book], a nested Document; [books], an array of
    them; [tags], an array of required strings. *)
Definition userFields : gmap string FieldDefinition :=
  list_to_map [
    ("name", {| def_type := VString "String"; def_get := None; def_set := None;
               def_defaultValue := Literal VUndefined;
               def_validate := VArray [VString "presence"] |});
    ("nick", {| def_type := VString "String"; def_get := None;
               def_set := Some append_set;
               def_defaultValue := Literal (VString "100");
               def_validate := VUndefined |});
    ("label", {| def_type := VString "String"; def_get := None; def_set := None;
                def_defaultValue := Function tells_argument;
                def_validate := VUndefined |});
    ("book", {| def_type := bookSchema; def_get := None; def_set := None;
               def_defaultValue := Literal VUndefined;
               def_validate := VUndefined |});
    ("books", {| def_type := VArray [bookSchema]; def_get := None; def_set := None;
                def_defaultValue := Literal VUndefined;
                def_validate := VUndefined |});
    ("tags", {| def_type := VArray [VString "String"]; def_get := None;
               def_set := None;
               def_defaultValue := Literal VUndefined;
               def_validate := VArray [VString "presence"] |})
  ].

Definition user : Document := {| self := 0; dollar_schema_fields := userFields |}.

(** The heap before any field of [user] exists. *)
Definition start : heap :=
  {| this := {| dollar_document := user; dollar_name := "";
                _value := VUndefined; _initialValue := VUndefined |};
     typeOptions_types := ∅;
     world := {| journal := []; invalid := [] |} |}.

(** The heap with the field [name] of [user] holding [v], committed at [i]. *)
Definition field (name : string) (v i : jsval) (bad : list ref) : heap :=
  {| this := {| dollar_document := user; dollar_name := name;
                _value := v; _initialValue := i |};
     typeOptions_types := ∅;
     world := {| journal := []; invalid := bad |} |}.

End Example.

(** The entries [_isRelatedValid] ends up testing with [isAbsent]: the
    values that are not arrays, found by going through the arrays. *)
Fixpoint leaves (v : jsval) : list jsval :=
  match v with
  | VArray items => flat_map leaves items
  | _ => [v]
  end.

(** ** A runtime whose other objects fail

    A second instance, over the same journal: the rule [unreachable] makes
    the validator reject, the constructor of Document throws, and a
    Document's [validate()] resolves to undefined. *)
Module Failing.

Definition lookup_failed : exn := Thrown (VString "lookup failed").

Definition cannot_construct : exn := Thrown (VString "cannot construct").

Definition issues (v rules : jsval) : M Example.environment (promise (list jsval)) :=
  match rules with
  | VArray (VString rule :: _) =>
      if String.eqb rule "unreachable" then ret (Rejected lookup_failed)
      else Example.issues v rules
  | _ => Example.issues v rules
  end.

Definition new_Document (a b c : jsval) : M Example.environment jsval :=
  throw cannot_construct.

Definition validate_Document (d : ref) : M Example.environment (promise jsval) :=
  Example.record (Example.Validated d) ;;;
  ret (Resolved VUndefined).

#[export] Instance runtime : Runtime := {|
  W := Example.environment;
  isAbsent := Example.absent;
  cast := Example.cast_value;
  deepEqual := fun _ a b => jsval_eqb a b;
  cloneData := fun v => ret v;
  validator_validate := issues;
  Document_constructor := new_Document;
  Document_validate := validate_Document;
  Document_commit := Example.commit_Document
|}.

(** The fields of the order document: [code], a string checked by the rule
    [unreachable]; [item], a nested Document; [note], a plain string. *)
Definition orderFields : gmap string FieldDefinition :=
  list_to_map [
    ("code", {| def_type := VString "String"; def_get := None; def_set := None;
               def_defaultValue := Literal VUndefined;
               def_validate := VArray [VString "unreachable"] |});
    ("item", {| def_type := VSchema 2; def_get := None; def_set := None;
               def_defaultValue := Literal VUndefined;
               def_validate := VUndefined |});
    ("note", {| def_type := VString "String"; def_get := None; def_set := None;
               def_defaultValue := Literal VUndefined;
               def_validate := VUndefined |})
  ].

Definition order : Document := {| self := 7; dollar_schema_fields := orderFields |}.

(** The heap with the field [name] of [order] holding [v], committed at [i]. *)
Definition field (name : string) (v i : jsval) : heap :=
  {| this := {| dollar_document := order; dollar_name := name;
                _value := v; _initialValue := i |};
     typeOptions_types := ∅;
     world := {| Example.journal := []; Example.invalid := [] |} |}.

End Failing.

(** The type table [$schema.typeOptions.types] is the same. *)
Definition same_types `{Runtime} (h h' : heap) : Prop :=
  typeOptions_types h' = typeOptions_types h.

(** The field is the same slot of the same Document. *)
Definition same_identity `{Runtime} (h h' : heap) : Prop :=
  dollar_document (this h') = dollar_document (this h) /\
  dollar_name (this h') = dollar_name (this h).

(** The field holds the same [_value]. *)
Definition same_value `{Runtime} (h h' : heap) : Prop :=
  _value (this h') = _value (this h).

(** * Properties *)

(** ** What a method leaves alone *)

Section Frame.
Context `{RT : Runtime}.
Variable R : heap -> heap -> Prop.
Hypothesis R_refl : forall h, R h h.
Hypothesis R_trans : forall h1 h2 h3, R h1 h2 -> R h2 h3 -> R h1 h3.
Hypothesis R_world : forall h w,
  R h {| this := this h; typeOptions_types := typeOptions_types h; world := w |}.
Hypothesis R_types : forall h t,
  R h {| this := this h; typeOptions_types := t; world := world h |}.

Lemma frame_ret {A} (a : A) : frame R (ret a).
Proof. intros h. apply R_refl. Qed.

Lemma frame_throw {A} e : frame R (@throw heap A e).
Proof. intros h. apply R_refl. Qed.

Lemma frame_bind {A B} (m : M heap A) (k : A -> M heap B) :
  frame R m -> (forall a, frame R (k a)) -> frame R (bind m k).
Proof.
  intros Hm Hk h. unfold bind. specialize (Hm h).
  destruct (m h) as [[a|e] h1]; simpl in *; [|assumption].
  eapply R_trans; [eassumption|apply Hk].
Qed.

Lemma frame_lift {A} (m : M W A) : frame R (lift m).
Proof. intros h. unfold lift. destruct (m (world h)); simpl. apply R_world. Qed.

Lemma frame_asyncToGenerator {A} (m : M heap A) :
  frame R m -> frame R (asyncToGenerator m).
Proof.
  intros Hm h. unfold asyncToGenerator. specialize (Hm h).
  destruct (m h) as [[a|e] h1]; assumption.
Qed.

Lemma frame_yield {A} (m : M heap (promise A)) : frame R m -> frame R (yield m).
Proof.
  intros Hm h. unfold yield. specialize (Hm h).
  destruct (m h) as [[[a|e]|e] h1]; assumption.
Qed.

Lemma frame_mapM {A B} (f : A -> M heap B) l :
  (forall a, frame R (f a)) -> frame R (mapM f l).
Proof.
  intros Hf. induction l as [|a l IH]; simpl.
  - apply frame_ret.
  - apply frame_bind; [apply Hf|]. intros b.
    apply frame_bind; [apply IH|]. intros bs. apply frame_ret.
Qed.

Lemma frame_get_this : frame R get_this.
Proof. intros h. apply R_refl. Qed.

Lemma frame_get_types : frame R get_types.
Proof. intros h. apply R_refl. Qed.

Lemma frame_write_types t : frame R (write_types t).
Proof. intros h. apply R_types. Qed.

Lemma frame_definition : frame R definition.
Proof.
  apply frame_bind; [apply frame_get_this|]. intros f.
  destruct (_ !! _); [apply frame_ret|apply frame_throw].
Qed.

Lemma frame_get_value : frame R get_value.
Proof.
  apply frame_bind; [apply frame_definition|]. intros d.
  apply frame_bind; [apply frame_get_this|]. intros f. apply frame_ret.
Qed.

Lemma frame_get_initialValue : frame R get_initialValue.
Proof. apply frame_bind; [apply frame_get_this|]. intros f. apply frame_ret. Qed.

Lemma frame__cast value type : frame R (_cast value type).
Proof.
  apply frame_bind; [apply frame_get_this|]. intros f.
  apply frame_bind; [apply frame_get_types|]. intros t.
  apply frame_bind; [apply frame_write_types|]. intros _.
  apply frame_bind; [apply frame_get_types|]. intros t'.
  apply frame_lift.
Qed.

Lemma frame_get_defaultValue : frame R get_defaultValue.
Proof.
  apply frame_bind; [apply frame_definition|]. intros d.
  apply frame_bind; [apply frame_get_this|]. intros f.
  apply frame_bind.
  { destruct (def_defaultValue d); [apply frame_ret|apply frame_lift]. }
  intros v. apply frame_bind; [apply frame__cast|]. intros v'. apply frame_ret.
Qed.

Lemma frame_equals data : frame R (equals data).
Proof.
  apply frame_bind; [apply frame_get_value|]. intros v h. apply R_refl.
Qed.

Lemma frame_isChanged : frame R isChanged.
Proof.
  apply frame_bind; [apply frame_get_initialValue|]. intros v.
  apply frame_bind; [apply frame_equals|]. intros b. apply frame_ret.
Qed.

Lemma frame_call_validate v : frame R (call_validate v).
Proof. destruct v; try apply frame_throw. apply frame_lift. Qed.

Lemma frame__validateValue value : frame R (_validateValue value).
Proof.
  apply frame_asyncToGenerator.
  apply frame_bind; [apply frame_definition|]. intros d.
  apply frame_yield, frame_lift.
Qed.

Lemma frame__validateRelated value : frame R (_validateRelated value).
Proof.
  apply frame_asyncToGenerator.
  apply frame_bind; [apply frame_definition|]. intros d. cbv beta zeta.
  destruct (_ && _).
  { apply frame_yield, frame_call_validate. }
  destruct (_ && _); [|apply frame_ret].
  apply frame_bind; [|intros; apply frame_ret].
  apply frame_mapM. intros v. cbv beta.
  destruct (instanceof_Schema _).
  - destruct (truthy v); [apply frame_yield, frame_call_validate|apply frame_ret].
  - apply frame_bind; [apply frame_yield, frame__validateValue|].
    intros; apply frame_ret.
Qed.

Lemma frame__isRelatedValid related : frame R (_isRelatedValid related).
Proof. destruct related; try apply frame_throw. apply frame_ret. Qed.

Lemma frame_validate : frame R validate.
Proof.
  apply frame_asyncToGenerator.
  apply frame_bind; [apply frame_get_this|]. intros f.
  apply frame_bind; [apply frame_get_value|]. intros v.
  apply frame_bind; [apply frame_yield, frame__validateValue|]. intros errors.
  apply frame_bind; [apply frame_get_value|]. intros v'.
  apply frame_bind; [apply frame_yield, frame__validateRelated|]. intros related.
  apply frame_bind.
  { destruct (_ <? _)%nat; [apply frame_ret|].
    apply frame_bind; [apply frame__isRelatedValid|]. intros; apply frame_ret. }
  intros [|]; apply frame_ret.
Qed.

(** The methods below assign to [_value]. *)
Hypothesis R_value : forall h v,
  R h {| this := {| dollar_document := dollar_document (this h);
                    dollar_name := dollar_name (this h);
                    _value := v;
                    _initialValue := _initialValue (this h) |};
         typeOptions_types := typeOptions_types h;
         world := world h |}.

Lemma frame_write_value v : frame R (write_value v).
Proof. intros h. apply R_value. Qed.

Lemma frame_set_value value : frame R (set_value value).
Proof.
  apply frame_bind; [apply frame_definition|]. intros d.
  apply frame_bind; [apply frame__cast|]. intros v.
  apply frame_bind; [apply frame_get_this|]. intros f.
  apply frame_write_value.
Qed.

Lemma frame_reset : frame R reset.
Proof.
  apply frame_bind; [apply frame_get_defaultValue|]. intros v.
  apply frame_bind; [apply frame_set_value|]. intros _. apply frame_get_this.
Qed.

Lemma frame_clear : frame R clear.
Proof.
  apply frame_bind; [apply frame_set_value|]. intros _. apply frame_get_this.
Qed.

Lemma frame_rollback : frame R rollback.
Proof.
  apply frame_bind; [apply frame_get_initialValue|]. intros v.
  apply frame_bind; [apply frame_set_value|]. intros _. apply frame_get_this.
Qed.

End Frame.

Ltac frame_side := unfold same_this, same_initialValue; intros; simpl; congruence.

(** C8: [validate()] stores nothing on the field.  However the call ends,
    the Field object is left as it was: [_value] and [_initialValue] are what
    they were before the call, and since these with [$document] and [$name]
    are all the own properties a Field has, no error list has been stored
    on it either. *)
Theorem validate_leaves_field_unchanged `{Runtime} (h : heap) :
  this (snd (validate h)) = this h /\
  _value (this (snd (validate h))) = _value (this h) /\
  _initialValue (this (snd (validate h))) = _initialValue (this h).
Proof.
  assert (Hthis : this (snd (validate h)) = this h).
  { apply (frame_validate same_this); frame_side. }
  rewrite Hthis. auto.
Qed.

(** C9: outside of construction and [commit()], [_initialValue] is never
    assigned: the [value] setter, [reset()], [clear()], [rollback()],
    [equals(data)] and [isChanged()] all leave it as it was, however they
    end. *)
Theorem initialValue_unchanged_outside_commit `{Runtime} (h : heap)
    (value data : jsval) :
  same_initialValue h (snd (set_value value h)) /\
  same_initialValue h (snd (reset h)) /\
  same_initialValue h (snd (clear h)) /\
  same_initialValue h (snd (rollback h)) /\
  same_initialValue h (snd (equals data h)) /\
  same_initialValue h (snd (isChanged h)).
Proof.
  repeat split.
  - apply (frame_set_value same_initialValue); frame_side.
  - apply (frame_reset same_initialValue); frame_side.
  - apply (frame_clear same_initialValue); frame_side.
  - apply (frame_rollback same_initialValue); frame_side.
  - apply (frame_equals same_initialValue); frame_side.
  - apply (frame_isChanged same_initialValue); frame_side.
Qed.

(** ** Running a program step by step *)

Lemma bind_Ok {S A B} (m : M S A) (k : A -> M S B) s a s' :
  m s = (Ok a, s') -> bind m k s = k a s'.
Proof. intros Hm. unfold bind. rewrite Hm. reflexivity. Qed.

Lemma bind_Throw {S A B} (m : M S A) (k : A -> M S B) s e s' :
  m s = (Throw e, s') -> bind m k s = (Throw e, s').
Proof. intros Hm. unfold bind. rewrite Hm. reflexivity. Qed.

Lemma bind_inv {S A B} (m : M S A) (k : A -> M S B) s b s'' :
  bind m k s = (Ok b, s'') ->
  exists a s', m s = (Ok a, s') /\ k a s' = (Ok b, s'').
Proof.
  unfold bind. destruct (m s) as [[a|e] s']; [|discriminate].
  intros Hk. exists a, s'. split; [reflexivity|assumption].
Qed.

Lemma bind_ext {S A B} (m : M S A) (k1 k2 : A -> M S B) s :
  (forall a s', m s = (Ok a, s') -> k1 a s' = k2 a s') ->
  bind m k1 s = bind m k2 s.
Proof.
  intros Hk. unfold bind. destruct (m s) as [[a|e] s']; [|reflexivity].
  apply Hk. reflexivity.
Qed.

Lemma bind_ext_l {S A B} (m1 m2 : M S A) (k : A -> M S B) s :
  m1 s = m2 s -> bind m1 k s = bind m2 k s.
Proof. intros Hm. unfold bind. rewrite Hm. reflexivity. Qed.

Lemma snd_run {S A} (m : M S A) s r s' : m s = (r, s') -> s' = snd (m s).
Proof. intros ->. reflexivity. Qed.

Lemma yield_Resolved {S A} (p : M S (promise A)) s a s' :
  p s = (Ok (Resolved a), s') -> yield p s = (Ok a, s').
Proof. intros Hp. unfold yield. rewrite Hp. reflexivity. Qed.

Lemma yield_inv {S A} (p : M S (promise A)) s a s' :
  yield p s = (Ok a, s') -> p s = (Ok (Resolved a), s').
Proof.
  unfold yield. destruct (p s) as [[[x|e]|e] s1]; try discriminate.
  intros [= -> ->]. reflexivity.
Qed.


Lemma own_property_document `{Runtime} (f : Field) :
  own_property f "$document" = VDocument (self (dollar_document f)).
Proof. reflexivity. Qed.

Lemma own_property_name `{Runtime} (f : Field) :
  own_property f "$name" = VString (dollar_name f).
Proof. reflexivity. Qed.

(** Reading the value or the definition does not touch the heap. *)
Lemma definition_heap `{Runtime} h r h' : definition h = (r, h') -> h' = h.
Proof.
  unfold definition, bind, get_this. destruct (_ !! _); intros [= _ <-]; reflexivity.
Qed.

Lemma get_value_heap `{Runtime} h r h' : get_value h = (r, h') -> h' = h.
Proof.
  unfold get_value, bind. destruct (definition h) as [[d|e] h1] eqn:Hd.
  - apply definition_heap in Hd. subst h1. intros [= _ <-]. reflexivity.
  - apply definition_heap in Hd. subst h1. intros [= _ <-]. reflexivity.
Qed.

(** ** Validation *)




(** ** Related results *)

Lemma yield_asyncToGenerator {S A} (m : M S A) s : yield (asyncToGenerator m) s = m s.
Proof.
  unfold yield, asyncToGenerator. destruct (m s) as [[a|e] s']; reflexivity.
Qed.

(** Two loop bodies that agree on the elements of the list, in the states
    that satisfy an invariant both keep, give the same loop. *)
Lemma mapM_agree {S A B} (I : S -> Prop) (f g : A -> M S B) l :
  (forall a s, In a l -> I s -> f a s = g a s) ->
  (forall a s, I s -> I (snd (f a s))) ->
  forall s, I s -> mapM f l s = mapM g l s.
Proof.
  induction l as [|a l IH]; intros Hfg Hkeep s Hs; [reflexivity|].
  simpl. unfold bind.
  rewrite <- (Hfg a s) by (simpl; auto).
  pose proof (Hkeep a s Hs) as Hs'.
  destruct (f a s) as [[b|e] s1]; [|reflexivity]. simpl in Hs'.
  rewrite (IH (fun a' s' Hin => Hfg a' s' (or_intror Hin)) Hkeep s1 Hs').
  reflexivity.
Qed.

Lemma definition_same_this `{Runtime} h h' d :
  definition h = (Ok d, h) -> this h' = this h -> definition h' = (Ok d, h').
Proof.
  unfold definition, bind, get_this. intros Hd ->.
  destruct (_ !! _); [|discriminate]. injection Hd as ->. reflexivity.
Qed.

(** On a value of the declared type, [_validateRelated] is the program the
    specification describes. *)
Lemma validateRelated_as_specified `{Runtime} (value : jsval) (h : heap)
    (d : FieldDefinition) :
  definition h = (Ok d, h) ->
  holds_documents (def_type d) value = true ->
  _validateRelated value h = related_as_specified value h.
Proof.
  intros Hd Hholds.
  unfold _validateRelated, related_as_specified, asyncToGenerator.
  rewrite !(bind_Ok _ _ _ _ _ Hd). cbv beta zeta.
  destruct (def_type d) as [| | | | |elementType| | | |] eqn:Htype;
    try (simpl; rewrite andb_false_r; destruct value; reflexivity).
  - (* an array type *)
    simpl. rewrite andb_false_r.
    destruct value as [| | | | |items| | | |]; try reflexivity.
    simpl. unfold bind at 1 3.
    rewrite (mapM_agree (fun h' => this h' = this h) _
      (fun v =>
         if instanceof_Schema (index0 (VArray elementType)) then
           match v with
           | VDocument e => yield (lift (Document_validate e))
           | _ => ret VUndefined
           end
         else
           issues <- yield (lift (validator_validate v (def_validate d))) ;;
           ret (VArray issues))); [reflexivity| | |reflexivity].
    + intros v h' Hin Hthis.
      change (match elementType with [] => VUndefined | x :: _ => x end)
        with (index0 (VArray elementType)).
      destruct (instanceof_Schema (index0 (VArray elementType))) eqn:Hschema.
      * assert (Hv : match v with
                     | VDocument _ | VNull | VUndefined => true
                     | _ => false
                     end = true).
        { destruct elementType as [|[] ?]; try discriminate.
          simpl in Hholds. rewrite forallb_forall in Hholds. apply Hholds, Hin. }
        destruct v; try discriminate; reflexivity.
      * assert (Hy : yield (_validateValue v) h' =
                     yield (lift (validator_validate v (def_validate d))) h').
        { unfold _validateValue. rewrite yield_asyncToGenerator.
          rewrite (bind_Ok _ _ _ _ _ (definition_same_this h h' d Hd Hthis)).
          reflexivity. }
        unfold bind. rewrite Hy. reflexivity.
    + intros v h' Hthis.
      transitivity (this h'); [|assumption].
      destruct (instanceof_Schema _).
      * destruct (truthy v).
        -- apply (frame_yield same_this), (frame_call_validate same_this); frame_side.
        -- reflexivity.
      * apply (frame_bind same_this); try frame_side.
        -- apply (frame_yield same_this), (frame__validateValue same_this); frame_side.
        -- intros errors. apply (frame_ret same_this); frame_side.
  - (* a Schema type *)
    simpl. rewrite andb_true_r.
    destruct value; simpl in Hholds; unfold isPresent;
      try (rewrite Hholds; reflexivity).
    destruct (isAbsent (VDocument d0)); reflexivity.
Qed.

(** ** Commit *)

Lemma forEach_app {S A} (f : A -> M S unit) l1 l2 s :
  forEach f (l1 ++ l2) s = (forEach f l1 ;;; forEach f l2) s.
Proof.
  revert s. induction l1 as [|a l1 IH]; intros s; simpl; [reflexivity|].
  unfold bind. destruct (f a s) as [[[]|e] s1]; [|reflexivity].
  rewrite IH. reflexivity.
Qed.

Lemma bind_ret_tt {S} (m : M S unit) s : (m ;;; ret tt) s = m s.
Proof. unfold bind, ret. destruct (m s) as [[[]|e] s1]; reflexivity. Qed.

(** [_commitRelated] commits the nested Documents of the value, in order,
    and does nothing else. *)
Lemma _commitRelated_documents `{Runtime} (v : jsval) :
  plain_objects_lack_commit v = true ->
  forall w, _commitRelated v w = forEach Document_commit (nested_documents v) w.
Proof.
  induction v as [| | | | |items IH|props _| | |] using jsval_induction;
    intros Hlack w; try reflexivity.
  - destruct b; reflexivity.
  - simpl. destruct (negb (n =? 0)%Z); reflexivity.
  - simpl. destruct (negb (String.eqb s "")); reflexivity.
  - simpl in Hlack. simpl. revert w.
    induction IH as [|x items Hx _ IHitems]; intros w; [reflexivity|].
    simpl in Hlack. apply andb_true_iff in Hlack as [Hlack_x Hlack_items].
    simpl. rewrite forEach_app. unfold bind.
    rewrite (Hx Hlack_x). destruct (forEach _ _ w) as [[[]|e] w1]; [|reflexivity].
    apply IHitems, Hlack_items.
  - simpl in Hlack. apply negb_true_iff in Hlack. simpl. rewrite Hlack. reflexivity.
  - simpl. symmetry. apply bind_ret_tt.
Qed.

Lemma definition_inv `{Runtime} h d h' :
  definition h = (Ok d, h') ->
  h' = h /\ dollar_schema_fields (dollar_document (this h)) !! dollar_name (this h) = Some d.
Proof.
  unfold definition, bind, get_this, ret, throw.
  destruct (_ !! _); intros [= <- <-]; auto.
Qed.

Lemma get_value_inv `{Runtime} h v h' :
  get_value h = (Ok v, h') ->
  h' = h /\ exists d, definition h = (Ok d, h) /\ v = transform (def_get d) (this h) (_value (this h)).
Proof.
  intros Hv. pose proof (get_value_heap _ _ _ Hv) as ->. split; [reflexivity|].
  apply bind_inv in Hv as (d & h1 & Hd & Hv).
  pose proof (definition_heap _ _ _ Hd) as ->.
  exists d. split; [assumption|]. injection Hv as <-. reflexivity.
Qed.

(** Reading the value gives the same result in two heaps that hold the same
    [_value] for the same field. *)
Lemma get_value_same `{Runtime} h h' v :
  get_value h = (Ok v, h) ->
  dollar_document (this h') = dollar_document (this h) ->
  dollar_name (this h') = dollar_name (this h) ->
  _value (this h') = _value (this h) ->
  get_value h' = (Ok v, h').
Proof.
  intros Hv Hdoc Hname Hvalue.
  apply get_value_inv in Hv as (_ & d & Hd & ->).
  apply definition_inv in Hd as (_ & Hd).
  unfold get_value, definition, bind, get_this, ret, transform.
  rewrite Hdoc, Hname, Hd, Hvalue, !own_property_document, Hdoc. reflexivity.
Qed.

(** ** The related results of [validate()] *)

(** C6: [validate()] computes its related results from the value the field
    holds, read through the getter once the own issues are there, and on a
    value of the declared type they are what the specification describes:
    for an array under an array type, one result per element in array
    order, which under a Schema element type is the [validate()] result of
    the element Document, or undefined for a null element, and otherwise the
    issues of the element under the field's own rule list; for a present
    nested Document under a Schema type, the [validate()] result of that
    Document; and the empty list in all other cases.  These results are the
    ones [validate()] tests and puts in the error. *)
Theorem validate_related_as_specified `{Runtime} (h h1 : heap)
    (d : FieldDefinition) (v : jsval) (errors : list jsval) :
  definition h = (Ok d, h) ->
  get_value h = (Ok v, h) ->
  holds_documents (def_type d) v = true ->
  (x <- get_value ;; _validateValue x) h = (Ok (Resolved errors), h1) ->
  (x <- get_value ;; _validateRelated x) h1 = related_as_specified v h1 /\
  validate h =
    asyncToGenerator (
      related <- yield (related_as_specified v) ;;
      hasError <- (if (0 <? length errors)%nat then ret true
                   else valid <- _isRelatedValid related ;; ret (negb valid)) ;;
      if (hasError : bool) then
        ret (createInvalidFieldError (VString (dollar_name (this h)))
               (VArray errors) related)
      else ret VUndefined) h1.
Proof.
  intros Hd Hv Hholds Herrors.
  assert (Hthis : this h1 = this h).
  { rewrite (snd_run _ _ _ _ Herrors).
    apply (frame_bind same_this); try frame_side.
    - apply (frame_get_value same_this); frame_side.
    - intros x. apply (frame__validateValue same_this); frame_side. }
  assert (Hd1 : definition h1 = (Ok d, h1))
    by (apply (definition_same_this h); assumption).
  assert (Hv1 : get_value h1 = (Ok v, h1))
    by (apply (get_value_same h); [assumption|rewrite Hthis; reflexivity..]).
  assert (Hrelated : (x <- get_value ;; _validateRelated x) h1
                     = related_as_specified v h1).
  { rewrite (bind_Ok _ _ _ _ _ Hv1).
    apply (validateRelated_as_specified v h1 d Hd1 Hholds). }
  split; [exact Hrelated|].
  rewrite (bind_Ok _ _ _ _ _ Hv1) in Hrelated.
  apply bind_inv in Herrors as (v0 & h0 & Hv0 & Herrors).
  pose proof (get_value_heap _ _ _ Hv0) as ->.
  rewrite Hv in Hv0. injection Hv0 as <-.
  unfold validate, asyncToGenerator.
  rewrite (bind_Ok get_this _ h (this h) h) by reflexivity.
  rewrite (bind_Ok _ _ _ _ _ Hv).
  rewrite (bind_Ok _ _ _ _ _ (yield_Resolved _ _ _ _ Herrors)).
  rewrite (bind_Ok _ _ _ _ _ Hv1).
  rewrite (bind_ext_l (yield (_validateRelated v)) (yield (related_as_specified v)))
    by (unfold yield; rewrite Hrelated; reflexivity).
  reflexivity.
Qed.

Lemma validate_related_as_specified_witness :
  let books := VArray [VDocument 5; VNull; VDocument 6] in
  let h := Example.field "books" books VNull [6] in
  fst (related_as_specified books h) =
    Ok (Resolved (VArray [VArray []; VUndefined; VArray [VString "invalid"]])) /\
  fst (validate h) =
    Ok (Resolved (VInvalidFieldError (VString "books") (VArray [])
                    (VArray [VArray []; VUndefined; VArray [VString "invalid"]])
                    (VString "Field validation failed") (VNumber 422))) /\
  (x <- get_value ;; _validateRelated x) h = related_as_specified books h /\
  validate h =
    asyncToGenerator (
      related <- yield (related_as_specified books) ;;
      hasError <- (if (0 <? length (@nil jsval))%nat then ret true
                   else valid <- _isRelatedValid related ;; ret (negb valid)) ;;
      if (hasError : bool) then
        ret (createInvalidFieldError (VString (dollar_name (this h)))
               (VArray []) related)
      else ret VUndefined) h.
Proof.
  intros books h.
  split; [vm_compute; reflexivity|]. split; [vm_compute; reflexivity|].
  apply (@validate_related_as_specified Example.runtime h h
           {| def_type := VArray [Example.bookSchema]; def_get := None;
              def_set := None; def_defaultValue := Literal VUndefined;
              def_validate := VUndefined |} books []).
  - reflexivity.
  - reflexivity.
  - reflexivity.
  - reflexivity.
Defined.

(** C5: [commit()] first commits every nested Document reachable from the
    current value (a nested Document, or the elements of an array of them,
    in order), then sets [_initialValue] to a deep copy of the current
    value, taken once the nested Documents are committed; and right after
    a [commit()] that returned, [isChanged()] is false.  A deep copy is
    deep-equal to its original; the value holds no plain object that has a
    [commit] property of its own. *)
Theorem commit_snapshots_value `{Runtime}
    (copy_equal : forall v w c w', cloneData v w = (Ok c, w') -> deepEqual w' v c = true)
    (h : heap) :
  (forall v, fst (get_value h) = Ok v -> plain_objects_lack_commit v = true) ->
  commit h = commit_as_specified h /\
  forall f h', commit h = (Ok f, h') ->
    (exists v w1,
       get_value h = (Ok v, h) /\
       forEach Document_commit (nested_documents v) (world h) = (Ok tt, w1) /\
       cloneData v w1 = (Ok (_initialValue (this h')), world h') /\
       _value (this h') = _value (this h)) /\
    isChanged h' = (Ok false, h').
Proof.
  intros Hlack.
  assert (Hspec : commit h = commit_as_specified h).
  { unfold commit, commit_as_specified.
    apply bind_ext. intros v h1 Hv.
    pose proof (get_value_heap _ _ _ Hv) as ->.
    apply bind_ext_l. unfold lift.
    rewrite (_commitRelated_documents v) by (apply Hlack; rewrite Hv; reflexivity).
    reflexivity. }
  split; [assumption|].
  intros f h' Hcommit. rewrite Hspec in Hcommit.
  apply bind_inv in Hcommit as (v & h0 & Hv & Hcommit).
  pose proof (get_value_heap _ _ _ Hv) as ->.
  apply bind_inv in Hcommit as ([] & h1 & Hnested & Hcommit).
  apply bind_inv in Hcommit as (v' & h0 & Hv' & Hcommit).
  pose proof (get_value_heap _ _ _ Hv') as ->.
  apply bind_inv in Hcommit as (c & h2 & Hcopy & Hcommit).
  apply bind_inv in Hcommit as ([] & h3 & Hwrite & Hcommit).
  unfold lift in Hnested, Hcopy.
  destruct (forEach _ _ (world h)) as [r1 w1] eqn:Hw1.
  injection Hnested as -> <-.
  rewrite (get_value_same h _ v Hv) in Hv' by reflexivity.
  injection Hv' as <-. simpl in Hcopy.
  destruct (cloneData v w1) as [r2 w2] eqn:Hw2.
  injection Hcopy as -> <-.
  injection Hwrite as <-. injection Hcommit as <- <-. simpl.
  split.
  - exists v, w1. auto.
  - match goal with |- isChanged ?x = _ => set (h' := x) end.
    assert (Hv' : get_value h' = (Ok v, h'))
      by (apply (get_value_same h); [assumption|reflexivity..]).
    unfold isChanged.
    rewrite (bind_Ok get_initialValue _ h' c h') by reflexivity.
    rewrite (bind_Ok (equals c) _ h' (deepEqual w2 v c) h')
      by (unfold equals; rewrite (bind_Ok _ _ _ _ _ Hv'); reflexivity).
    rewrite (copy_equal _ _ _ _ Hw2). reflexivity.
Qed.

Lemma jsval_eqb_refl (v : jsval) : jsval_eqb v v = true.
Proof.
  induction v as [| |b|n|s|items IH|props IH|r|r|path errors related message code
                  IH1 IH2 IH3 IH4 IH5] using jsval_induction; simpl.
  - reflexivity.
  - reflexivity.
  - destruct b; reflexivity.
  - apply Z.eqb_refl.
  - apply String.eqb_refl.
  - induction IH as [|x items Hx _ IHitems]; [reflexivity|].
    rewrite Hx. exact IHitems.
  - induction IH as [|[k x] props Hx _ IHprops]; [reflexivity|].
    simpl in Hx. rewrite String.eqb_refl, Hx. exact IHprops.
  - apply Nat.eqb_refl.
  - apply Nat.eqb_refl.
  - rewrite IH1, IH2, IH3, IH4, IH5. reflexivity.
Qed.

Lemma Example_copy_equal (v : jsval) (w : Example.environment) c w' :
  @cloneData Example.runtime v w = (Ok c, w') ->
  @deepEqual Example.runtime w' v c = true.
Proof. intros [= <- <-]. apply jsval_eqb_refl. Qed.

Lemma commit_snapshots_value_witness :
  let books := VArray [VDocument 5; VNull; VDocument 6] in
  let h := Example.field "books" books VNull [] in
  commit h = commit_as_specified h /\
  forall f h', commit h = (Ok f, h') ->
    (exists v w1,
       get_value h = (Ok v, h) /\
       forEach Document_commit (nested_documents v) (world h) = (Ok tt, w1) /\
       cloneData v w1 = (Ok (_initialValue (this h')), world h') /\
       _value (this h') = _value (this h)) /\
    isChanged h' = (Ok false, h').
Proof.
  intros books h.
  apply (@commit_snapshots_value Example.runtime Example_copy_equal h).
  intros v Hv. vm_compute in Hv. injection Hv as <-. reflexivity.
Defined.

(** ** Construction *)

(** C10: right after [new Field(document, name)], [_initialValue] is the
    very value stored in [_value]: the [defaultValue] getter has run once,
    the heap is the one that single run left, and both properties hold its
    result.  So, for a field without a [get] transform, [isChanged()] is
    false at construction (a value is deep-equal to itself). *)
Theorem constructor_initialValue_is_value `{Runtime}
    (equal_refl : forall w v, deepEqual w v v = true)
    (document : Document) (name : string) (h : heap) (f : Field) (h' : heap) :
  constructor document name h = (Ok f, h') ->
  let blank :=
    {| this := {| dollar_document := document; dollar_name := name;
                  _value := VUndefined; _initialValue := VUndefined |};
       typeOptions_types := typeOptions_types h;
       world := world h |} in
  (exists v h1,
     get_defaultValue blank = (Ok v, h1) /\
     h' = {| this := {| dollar_document := document; dollar_name := name;
                        _value := v; _initialValue := v |};
             typeOptions_types := typeOptions_types h1;
             world := world h1 |}) /\
  _initialValue (this h') = _value (this h') /\
  f = this h' /\
  (forall d, dollar_schema_fields document !! name = Some d ->
             def_get d = None -> isChanged h' = (Ok false, h')).
Proof.
  intros Hnew blank.
  unfold constructor in Hnew.
  rewrite (bind_Ok (new_object document name) _ h tt blank) in Hnew by reflexivity.
  apply bind_inv in Hnew as (v & h1 & Hdefault & Hnew).
  assert (Hthis : this h1 = this blank).
  { change h1 with (snd (Ok v, h1)). rewrite <- Hdefault.
    apply (frame_get_defaultValue same_this); frame_side. }
  apply bind_inv in Hnew as ([] & h2 & Hwrite & Hnew).
  injection Hwrite as <-.
  apply bind_inv in Hnew as (f2 & h3 & Hf2 & Hnew).
  injection Hf2 as <- <-.
  apply bind_inv in Hnew as ([] & h4 & Hwrite & Hnew).
  injection Hwrite as <-. injection Hnew as <- <-.
  rewrite Hthis. simpl.
  split; [exists v, h1; split; [assumption|reflexivity]|].
  split; [reflexivity|]. split; [reflexivity|].
  intros d Hd Hget.
  unfold isChanged, equals, get_value, definition, get_initialValue, bind,
    get_this, ret, transform. simpl.
  rewrite Hd, Hget, equal_refl. reflexivity.
Qed.

Lemma constructor_initialValue_is_value_witness :
  let h' := snd (constructor Example.user "label" Example.start) in
  _value (this h') = VString "no document" /\
  _initialValue (this h') = _value (this h') /\
  Example.journal (world h') = [Example.Generated VUndefined] /\
  isChanged h' = (Ok false, h').
Proof.
  intros h'.
  destruct (@constructor_initialValue_is_value Example.runtime
              (fun _ => jsval_eqb_refl) Example.user "label" Example.start (this h') h' eq_refl)
    as (_ & Hinitial & _ & Hchanged).
  split; [reflexivity|]. split; [exact Hinitial|]. split; [reflexivity|].
  exact (Hchanged _ eq_refl eq_refl).
Defined.

(** ** Assignment, rollback, reset and clear *)

Ltac slot_side :=
  unfold same_slot; intros; simpl;
  repeat match goal with H : _ /\ _ |- _ => destruct H end;
  repeat split; congruence.

Lemma frame_forEach_set_value `{Runtime} (values : list jsval) :
  frame same_slot (forEach set_value values).
Proof.
  induction values as [|v values IH]; simpl.
  - apply (frame_ret same_slot); slot_side.
  - apply (frame_bind same_slot); [slot_side| |intros _; exact IH].
    apply (frame_set_value same_slot); slot_side.
Qed.

(** What an assignment that goes well does. *)
Lemma set_value_run `{Runtime} h d value c w' :
  definition h = (Ok d, h) ->
  cast value (def_type d)
    (<["Schema" := Schema_resolver (this h) (def_type d)]> (typeOptions_types h))
    (world h) = (Ok c, w') ->
  set_value value h =
    (Ok tt,
     {| this := {| dollar_document := dollar_document (this h);
                   dollar_name := dollar_name (this h);
                   _value := transform (def_set d) (this h) c;
                   _initialValue := _initialValue (this h) |};
        typeOptions_types :=
          <["Schema" := Schema_resolver (this h) (def_type d)]> (typeOptions_types h);
        world := w' |}).
Proof.
  intros Hd Hcast. unfold set_value.
  rewrite (bind_Ok _ _ _ _ _ Hd).
  erewrite (bind_Ok (_cast value (def_type d))).
  2:{ unfold _cast, bind, get_this, get_types, write_types, lift. simpl.
      rewrite Hcast. reflexivity. }
  reflexivity.
Qed.

(** C4, as the code has it: [rollback()] assigns [initialValue] through the
    [value] setter, coercion and [set] transform included.  After a
    [commit()] (or the construction) and any sequence of assignments,
    [rollback()] leaves the snapshot then taken in [_value] when the field
    declares no [set] transform and the coercion gives the snapshot back
    unchanged. *)
Theorem rollback_restores_snapshot `{Runtime} (h1 h2 : heap)
    (values : list jsval) (d : FieldDefinition) :
  (exists h0 f, commit h0 = (Ok f, h1)) \/
  (exists document name h0 f, constructor document name h0 = (Ok f, h1)) ->
  forEach set_value values h1 = (Ok tt, h2) ->
  definition h1 = (Ok d, h1) ->
  def_set d = None ->
  (forall types w, fst (cast (_initialValue (this h1)) (def_type d) types w)
                   = Ok (_initialValue (this h1))) ->
  rollback h2 = (set_value (_initialValue (this h2)) ;;; get_this) h2 /\
  exists f3 h3,
    rollback h2 = (Ok f3, h3) /\
    _value (this h3) = _initialValue (this h1) /\
    _initialValue (this h3) = _initialValue (this h1).
Proof.
  intros _ Hassign Hd Hset Hcast.
  split; [reflexivity|].
  assert (Hslot : same_slot h1 h2).
  { change h2 with (snd (Ok tt, h2)). rewrite <- Hassign.
    apply frame_forEach_set_value. }
  destruct Hslot as (Hdoc & Hname & Hinitial).
  assert (Hd2 : definition h2 = (Ok d, h2)).
  { apply definition_inv in Hd as (_ & Hd).
    unfold definition, bind, get_this. rewrite Hdoc, Hname, Hd. reflexivity. }
  set (c := _initialValue (this h1)) in *.
  destruct (cast c (def_type d)
              (<["Schema" := Schema_resolver (this h2) (def_type d)]>
                 (typeOptions_types h2)) (world h2)) as [r w3] eqn:Hrun.
  pose proof (Hcast (<["Schema" := Schema_resolver (this h2) (def_type d)]>
                       (typeOptions_types h2)) (world h2)) as Hr.
  rewrite Hrun in Hr. simpl in Hr. subst r.
  unfold rollback.
  rewrite (bind_Ok get_initialValue _ h2 c h2)
    by (unfold get_initialValue, bind, get_this, ret; rewrite Hinitial; reflexivity).
  rewrite (bind_Ok _ _ _ _ _ (set_value_run h2 d c c w3 Hd2 Hrun)).
  eexists _, _. split; [reflexivity|].
  simpl. rewrite Hset. simpl. auto.
Qed.

Lemma rollback_restores_snapshot_witness :
  let h0 := Example.field "name" (VString "John") VNull [] in
  let h1 := snd (commit h0) in
  let h2 := snd (forEach set_value [VString "Jane"; VNull] h1) in
  _initialValue (this h1) = VString "John" /\
  _value (this h2) = VNull /\
  exists f3 h3,
    rollback h2 = (Ok f3, h3) /\
    _value (this h3) = VString "John" /\
    _initialValue (this h3) = VString "John".
Proof.
  intros h0 h1 h2.
  split; [reflexivity|]. split; [reflexivity|].
  apply (@rollback_restores_snapshot Example.runtime h1 h2
           [VString "Jane"; VNull]
           {| def_type := VString "String"; def_get := None; def_set := None;
              def_defaultValue := Literal VUndefined;
              def_validate := VArray [VString "presence"] |}).
  - left. exists h0, (this h1). reflexivity.
  - reflexivity.
  - reflexivity.
  - reflexivity.
  - intros types w. reflexivity.
Defined.

(** C4, as the specification words it, fails for a field with a [set] transform.
    The field [nick] appends ["-set"]; built from its default, committed,
    assigned ["x"] and rolled back, it holds ["100-set-set"], which is not
    deep-equal to the committed snapshot ["100-set"]. *)
Lemma rollback_applies_set_again :
  let h0 := snd (constructor Example.user "nick" Example.start) in
  let h1 := snd (commit h0) in
  let h2 := snd (set_value (VString "x") h1) in
  let h3 := snd (rollback h2) in
  (exists f, fst (commit h0) = Ok f) /\
  fst (set_value (VString "x") h1) = Ok tt /\
  (exists f, fst (rollback h2) = Ok f) /\
  _initialValue (this h1) = VString "100-set" /\
  _value (this h3) = VString "100-set-set" /\
  deepEqual (world h3) (_value (this h3)) (_initialValue (this h1)) = false.
Proof.
  intros h0 h1 h2 h3.
  split; [eexists; reflexivity|].
  split; [reflexivity|].
  split; [eexists; reflexivity|].
  split; [reflexivity|]. split; reflexivity.
Qed.

(** C7, as the code has it: [reset()] assigns [defaultValue], and [clear()]
    assigns null, through the [value] setter.  After a [reset()] that
    returned, [_value] is the [set] transform of the coercion of what the
    [defaultValue] getter gave; after [clear()] on a field that declares no
    [set] transform, with a coercion that maps null to null, [_value] is
    null whatever the default is. *)
Theorem reset_and_clear_assign `{Runtime} (h : heap) (d : FieldDefinition) :
  definition h = (Ok d, h) ->
  reset h = (v <- get_defaultValue ;; set_value v ;;; get_this) h /\
  clear h = (set_value VNull ;;; get_this) h /\
  (forall f h', reset h = (Ok f, h') ->
     exists v h1 c h2,
       get_defaultValue h = (Ok v, h1) /\
       _cast v (def_type d) h1 = (Ok c, h2) /\
       _value (this h') = transform (def_set d) (this h) c) /\
  (def_set d = None ->
   (forall types w, fst (cast VNull (def_type d) types w) = Ok VNull) ->
   exists f h', clear h = (Ok f, h') /\ _value (this h') = VNull).
Proof.
  intros Hd. split; [reflexivity|]. split; [reflexivity|]. split.
  - intros f h' Hreset. unfold reset in Hreset.
    apply bind_inv in Hreset as (v & h1 & Hdefault & Hreset).
    assert (Hthis : this h1 = this h).
    { change h1 with (snd (Ok v, h1)). rewrite <- Hdefault.
      apply (frame_get_defaultValue same_this); frame_side. }
    apply bind_inv in Hreset as ([] & h3 & Hassign & Hreset).
    injection Hreset as <- <-.
    unfold set_value in Hassign.
    rewrite (bind_Ok _ _ _ _ _ (definition_same_this h h1 d Hd Hthis)) in Hassign.
    apply bind_inv in Hassign as (c & h2 & Hcast & Hassign).
    assert (Hthis2 : this h2 = this h).
    { rewrite <- Hthis. change h2 with (snd (Ok c, h2)). rewrite <- Hcast.
      apply (frame__cast same_this); frame_side. }
    exists v, h1, c, h2. split; [assumption|]. split; [assumption|].
    unfold bind, get_this, write_value in Hassign.
    injection Hassign as <-. simpl. rewrite Hthis2. reflexivity.
  - intros Hset Hcast. unfold clear.
    destruct (cast VNull (def_type d)
                (<["Schema" := Schema_resolver (this h) (def_type d)]>
                   (typeOptions_types h)) (world h)) as [r w'] eqn:Hrun.
    pose proof (Hcast (<["Schema" := Schema_resolver (this h) (def_type d)]>
                         (typeOptions_types h)) (world h)) as Hr.
    rewrite Hrun in Hr. simpl in Hr. subst r.
    rewrite (bind_Ok _ _ _ _ _ (set_value_run h d VNull VNull w' Hd Hrun)).
    eexists _, _. split; [reflexivity|]. simpl. rewrite Hset. reflexivity.
Qed.

Lemma reset_and_clear_assign_witness :
  let h := Example.field "name" (VString "John") (VString "John") [] in
  exists f h', clear h = (Ok f, h') /\ _value (this h') = VNull.
Proof.
  intros h.
  apply (@reset_and_clear_assign Example.runtime h
           {| def_type := VString "String"; def_get := None; def_set := None;
              def_defaultValue := Literal VUndefined;
              def_validate := VArray [VString "presence"] |}).
  - reflexivity.
  - reflexivity.
  - intros types w. reflexivity.
Defined.

(** C7, as the specification words it, fails for a field with a [set] transform:
    after [clear()] the field [nick] holds the string ["null-set"] and not
    null, although the coercion has kept the null; and after [reset()] it
    holds ["100-set-set"] while its [defaultValue] reads ["100-set"]. *)
Lemma clear_stores_what_set_returns :
  let h := Example.field "nick" (VString "x-set") (VString "100-set") [] in
  (exists f, fst (clear h) = Ok f) /\
  fst (_cast VNull (VString "String") h) = Ok VNull /\
  _value (this (snd (clear h))) = VString "null-set" /\
  _value (this (snd (clear h))) <> VNull /\
  (exists f, fst (reset h) = Ok f) /\
  fst (get_defaultValue h) = Ok (VString "100-set") /\
  _value (this (snd (reset h))) = VString "100-set-set".
Proof.
  intros h.
  split; [eexists; reflexivity|].
  split; [reflexivity|].
  split; [reflexivity|].
  split; [discriminate|].
  split; [eexists; reflexivity|].
  split; reflexivity.
Qed.

(** ** Default values and nested Documents *)

(** The argument a [defaultValue] function is called with is
    [this._document], a property the Field object does not have. *)
Lemma get_defaultValue_Function `{Runtime} (h : heap) (d : FieldDefinition)
    (g : jsval -> M W jsval) :
  definition h = (Ok d, h) ->
  def_defaultValue d = Function g ->
  get_defaultValue h =
    (v <- lift (g VUndefined) ;;
     v <- _cast v (def_type d) ;;
     ret (transform (def_set d) (this h) v)) h.
Proof.
  intros Hd Hg. unfold get_defaultValue.
  rewrite (bind_Ok _ _ _ _ _ Hd).
  rewrite (bind_Ok get_this _ h (this h) h) by reflexivity.
  rewrite Hg. reflexivity.
Qed.

(** C3 does not hold of the code: the [defaultValue] function of the field
    [label] tells whether its argument is a Document.  Read on a field of
    the Document [user], the getter calls it with [undefined], not with
    [user], and returns ["no document"]. *)
Theorem defaultValue_function_gets_undefined :
  let h := Example.field "label" VNull VNull [] in
  own_property (this h) "$document" = VDocument 0 /\
  own_property (this h) "_document" = VUndefined /\
  fst (get_defaultValue h) = Ok (VString "no document") /\
  Example.journal (world (snd (get_defaultValue h))) = [Example.Generated VUndefined].
Proof.
  intros h. repeat split; reflexivity.
Qed.

(** Whatever the runtime, the [Schema] entry hands the constructor the
    Schema, the value and the owning Document, in this order, for a type that
    is a Schema or a one-element array of a Schema. *)
Lemma Schema_resolver_call `{Runtime} (f : Field) (s : ref) (value : jsval) :
  Schema_resolver f (VSchema s) value =
    Document_constructor (VSchema s) value (VDocument (self (dollar_document f))) /\
  Schema_resolver f (VArray [VSchema s]) value =
    Document_constructor (VSchema s) value (VDocument (self (dollar_document f))).
Proof. split; reflexivity. Qed.

(** C2 does not hold of the code: the [Schema] entry of the type table calls
    the constructor with the type first and the value second.  Assigning
    the raw data [{title: 100}] to the field [book], of type [bookSchema],
    and [[{title: 100}]] to [books], of type [[bookSchema]], builds a
    Document whose raw data is the Schema and whose schema is the raw data;
    the parent is the owning Document. *)
Theorem Schema_resolver_passes_type_first :
  let raw := VObject [("title", VNumber 100)] in
  let built := {| Example.rawData := Example.bookSchema;
                  Example.schemaOrConfig := raw;
                  Example.parentDocument := VDocument 0 |} in
  let book := snd (set_value raw (Example.field "book" VNull VNull [])) in
  let books := snd (set_value (VArray [raw]) (Example.field "books" VNull VNull [])) in
  _value (this book) = VDocument 100 /\
  Example.journal (world book) = [Example.Constructed 100 built] /\
  _value (this books) = VArray [VDocument 100] /\
  Example.journal (world books) = [Example.Constructed 100 built].
Proof.
  intros raw built book books. repeat split; reflexivity.
Qed.


(** * Further properties of the class *)

(** ** The error object *)

Lemma argument_defined (i : nat) (default : jsval) (arguments : list jsval) :
  default <> VUndefined -> argument i default arguments <> VUndefined.
Proof.
  intros Hdefault. unfold argument.
  destruct (nth i arguments VUndefined); try discriminate. exact Hdefault.
Qed.

(** X1: whatever arguments [new InvalidFieldError(...)] is given, each of
    [path], [errors], [related], [message] and [code] is the argument at its
    position when that argument is given and is not undefined (null
    included), and otherwise its default: null, the empty array, the empty
    array, ['Field validation failed'] and 422.  So no property of the error
    is ever undefined, the error built from no argument holds the five
    defaults, and arguments past the fifth are ignored. *)
Theorem InvalidFieldError_properties_defined (arguments : list jsval) :
  let given (i : nat) (default : jsval) :=
    match nth i arguments VUndefined with
    | VUndefined => default
    | a => a
    end in
  InvalidFieldError arguments =
    VInvalidFieldError (given 0 VNull) (given 1 (VArray [])) (given 2 (VArray []))
      (given 3 (VString "Field validation failed")) (given 4 (VNumber 422)) /\
  (forall path errors related message code,
     InvalidFieldError arguments =
       VInvalidFieldError path errors related message code ->
     path <> VUndefined /\ errors <> VUndefined /\ related <> VUndefined /\
     message <> VUndefined /\ code <> VUndefined) /\
  InvalidFieldError [] =
    VInvalidFieldError VNull (VArray []) (VArray [])
      (VString "Field validation failed") (VNumber 422) /\
  InvalidFieldError arguments = InvalidFieldError (firstn 5 arguments).
Proof.
  intros given. split; [reflexivity|]. split; [|split].
  - intros path errors related message code Heq.
    unfold InvalidFieldError in Heq. injection Heq as <- <- <- <- <-.
    repeat split; apply argument_defined; discriminate.
  - reflexivity.
  - destruct arguments as [|a0 [|a1 [|a2 [|a3 [|a4 rest]]]]]; reflexivity.
Qed.

Lemma InvalidFieldError_properties_defined_witness :
  InvalidFieldError [VString "name"; VNull; VUndefined] =
    VInvalidFieldError (VString "name") VNull (VArray [])
      (VString "Field validation failed") (VNumber 422).
Proof.
  exact (proj1 (InvalidFieldError_properties_defined
                 [VString "name"; VNull; VUndefined])).
Defined.

(** ** Related results *)

Lemma every_item_leaves `{Runtime} (v : jsval) :
  every_item v = forallb isAbsent (leaves v).
Proof.
  induction v as [| | | | |items IH|props _| | |] using jsval_induction;
    simpl; try (rewrite andb_true_r; reflexivity).
  induction IH as [|x items Hx _ IHitems]; [reflexivity|].
  simpl. rewrite forallb_app, Hx, IHitems. reflexivity.
Qed.

(** X2: [_isRelatedValid(related)] on an array answers whether every entry
    that is not an array, at whatever depth of nesting, is absent; arrays
    themselves are never tested, so an empty array at any depth counts as
    valid and the answer for two results put side by side is the
    conjunction of their answers.  On a value that is not an array the call
    throws a TypeError.  The heap is left as it is. *)
Theorem _isRelatedValid_tests_leaves `{Runtime} (h : heap)
    (items more : list jsval) (v : jsval) :
  _isRelatedValid (VArray items) h =
    (Ok (forallb isAbsent (flat_map leaves items)), h) /\
  _isRelatedValid (VArray (items ++ more)) h =
    (b1 <- _isRelatedValid (VArray items) ;;
     b2 <- _isRelatedValid (VArray more) ;;
     ret (b1 && b2)) h /\
  _isRelatedValid (VArray (VArray [] :: items)) h = _isRelatedValid (VArray items) h /\
  _isRelatedValid (VArray [VArray items]) h = _isRelatedValid (VArray items) h /\
  (isArray v = false ->
   _isRelatedValid v h = (Throw (TypeError "related.every is not a function"), h)).
Proof.
  repeat split.
  - simpl. unfold ret. f_equal. f_equal.
    change (forallb every_item items) with (every_item (VArray items)).
    apply every_item_leaves.
  - simpl. unfold bind, ret. rewrite forallb_app. reflexivity.
  - simpl. rewrite andb_true_r. reflexivity.
  - intros Harray. destruct v; try discriminate; reflexivity.
Qed.

Lemma _isRelatedValid_tests_leaves_witness :
  let h := Example.field "tags" VNull VNull [] in
  _isRelatedValid (VArray [VArray []; VArray [VArray [VUndefined]; VNull]]) h = (Ok true, h) /\
  _isRelatedValid (VArray [VArray [VArray [Example.is_required]]]) h = (Ok false, h) /\
  _isRelatedValid VUndefined h = (Throw (TypeError "related.every is not a function"), h).
Proof.
  intros h.
  destruct (@_isRelatedValid_tests_leaves Example.runtime h
              [VArray []; VArray [VArray [VUndefined]; VNull]] [] VUndefined)
    as (Hleaves & _ & _ & _ & Hthrow).
  destruct (@_isRelatedValid_tests_leaves Example.runtime h
              [VArray [VArray [Example.is_required]]] [] VNull)
    as (Hleaves' & _).
  split; [exact Hleaves|]. split; [exact Hleaves'|]. exact (Hthrow eq_refl).
Defined.

Lemma asyncToGenerator_Resolved {S A} (body : M S A) s a s' :
  asyncToGenerator body s = (Ok (Resolved a), s') -> body s = (Ok a, s').
Proof.
  unfold asyncToGenerator. destruct (body s) as [[x|e] s1]; intros [= <- <-]; reflexivity.
Qed.

(** A loop that returned went through its elements in order: there is the
    list of the states before, between and after the elements, and each
    entry of the result is what the body gave for the element at the same
    index, run in the state left by the element before. *)
Lemma mapM_chain {S A B} (f : A -> M S B) (l : list A) :
  forall s bs s', mapM f l s = (Ok bs, s') ->
  exists states : list S,
    length states = Datatypes.S (length l) /\
    states !! 0%nat = Some s /\
    states !! length l = Some s' /\
    length bs = length l /\
    forall (i : nat) (a : A), l !! i = Some a ->
      exists b before after,
        bs !! i = Some b /\
        states !! i = Some before /\
        states !! Datatypes.S i = Some after /\
        f a before = (Ok b, after).
Proof.
  induction l as [|a l IH]; intros s bs s' Hrun; simpl in Hrun.
  - injection Hrun as <- <-. exists [s]. repeat split; try reflexivity.
    intros i a Hi. discriminate.
  - apply bind_inv in Hrun as (b & s1 & Hb & Hrun).
    apply bind_inv in Hrun as (bs' & s2 & Hbs & Hrun).
    injection Hrun as <- <-.
    destruct (IH _ _ _ Hbs) as (states & Hlen & Hfirst & Hlast & Hlenbs & Hstep).
    exists (s :: states). simpl.
    split; [rewrite Hlen; reflexivity|].
    split; [reflexivity|]. split; [exact Hlast|].
    split; [rewrite Hlenbs; reflexivity|].
    intros [|i] x Hi; simpl in Hi.
    + injection Hi as <-. exists b, s, s1. repeat split; assumption.
    + destruct (Hstep i x Hi) as (b' & before & after & H1 & H2 & H3 & H4).
      exists b', before, after. repeat split; assumption.
Qed.

(** X3: under an array type, the related results of an array value, when
    they are obtained, are an array with exactly one entry per element, at
    the same index: null slots are neither dropped nor compacted.  The
    elements are gone through in order, each in the heap the one before
    left.  Under a Schema element type the entry of an element that reads as
    true is what its [validate()] resolves to, and the entry of an element
    that reads as false (null, undefined) is undefined, nothing being
    called; under any other element type the entry is the array of issues
    [_validateValue] resolves to for that element. *)
Theorem _validateRelated_keeps_indices `{Runtime} (h h' : heap)
    (d : FieldDefinition) (items : list jsval) (r : jsval) :
  definition h = (Ok d, h) ->
  isArray (def_type d) = true ->
  _validateRelated (VArray items) h = (Ok (Resolved r), h') ->
  exists (results : list jsval) (heaps : list heap),
    r = VArray results /\
    length results = length items /\
    length heaps = S (length items) /\
    heaps !! 0%nat = Some h /\
    heaps !! length items = Some h' /\
    forall (i : nat) (v : jsval), items !! i = Some v ->
      exists result before after,
        results !! i = Some result /\
        heaps !! i = Some before /\
        heaps !! S i = Some after /\
        if instanceof_Schema (index0 (def_type d)) then
          if truthy v then call_validate v before = (Ok (Resolved result), after)
          else result = VUndefined /\ after = before
        else
          exists issues,
            result = VArray issues /\
            _validateValue v before = (Ok (Resolved issues), after).
Proof.
  intros Hd Htype Hrun.
  apply asyncToGenerator_Resolved in Hrun.
  rewrite (bind_Ok _ _ _ _ _ Hd) in Hrun. cbv beta zeta in Hrun.
  destruct (def_type d) as [| | | | |elementType| | | |] eqn:Hty; try discriminate.
  simpl in Hrun. rewrite andb_false_r in Hrun.
  apply bind_inv in Hrun as (results & h1 & Hmap & Hret).
  injection Hret as <- <-.
  change (match elementType with [] => VUndefined | x :: _ => x end)
    with (index0 (VArray elementType)) in Hmap.
  apply mapM_chain in Hmap as (heaps & Hlen & Hfirst & Hlast & Hlenr & Hstep).
  exists results, heaps.
  repeat (split; [assumption || reflexivity|]).
  intros i v Hi.
  destruct (Hstep i v Hi) as (result & before & after & Hr & Hb & Ha & Hf).
  exists result, before, after.
  repeat (split; [assumption|]).
  destruct (instanceof_Schema (index0 (VArray elementType))).
  - destruct (truthy v).
    + apply yield_inv, Hf.
    + injection Hf as <- <-. split; reflexivity.
  - apply bind_inv in Hf as (issues & s1 & Hissues & Hret).
    injection Hret as <- <-. exists issues.
    split; [reflexivity|apply yield_inv, Hissues].
Qed.

Lemma _validateRelated_keeps_indices_witness :
  let books := [VDocument 5; VNull; VDocument 6] in
  let h := Example.field "books" (VArray books) VNull [6] in
  let h' := snd (_validateRelated (VArray books) h) in
  exists (results : list jsval) (heaps : list (@heap Example.runtime)),
    VArray [VArray []; VUndefined; VArray [VString "invalid"]] = VArray results /\
    length results = length books /\
    length heaps = S (length books) /\
    heaps !! 0%nat = Some h /\
    heaps !! length books = Some h' /\
    forall (i : nat) (v : jsval), books !! i = Some v ->
      exists result before after,
        results !! i = Some result /\
        heaps !! i = Some before /\
        heaps !! S i = Some after /\
        if instanceof_Schema (index0 (VArray [Example.bookSchema])) then
          if truthy v then call_validate v before = (Ok (Resolved result), after)
          else result = VUndefined /\ after = before
        else
          exists issues,
            result = VArray issues /\
            _validateValue v before = (Ok (Resolved issues), after).
Proof.
  intros books h h'.
  apply (@_validateRelated_keeps_indices Example.runtime h h'
           {| def_type := VArray [Example.bookSchema]; def_get := None;
              def_set := None; def_defaultValue := Literal VUndefined;
              def_validate := VUndefined |} books).
  - reflexivity.
  - reflexivity.
  - reflexivity.
Defined.

(** ** How [validate()] and [isValid()] settle *)

(** [validate()] once the own issues and the related results are there. *)
Lemma validate_after_results `{Runtime} (h h1 h2 : heap) (errors : list jsval)
    (related : jsval) :
  (v <- get_value ;; _validateValue v) h = (Ok (Resolved errors), h1) ->
  (v <- get_value ;; _validateRelated v) h1 = (Ok (Resolved related), h2) ->
  validate h =
    asyncToGenerator (
      hasError <- (if (0 <? length errors)%nat then ret true
                   else valid <- _isRelatedValid related ;; ret (negb valid)) ;;
      if (hasError : bool) then
        ret (createInvalidFieldError (own_property (this h) "$name")
               (VArray errors) related)
      else ret VUndefined) h2.
Proof.
  intros Herrors Hrelated.
  apply bind_inv in Herrors as (v1 & h0 & Hv1 & Herrors).
  pose proof (get_value_heap _ _ _ Hv1) as ->.
  apply bind_inv in Hrelated as (v2 & h0 & Hv2 & Hrelated).
  pose proof (get_value_heap _ _ _ Hv2) as ->.
  unfold validate, asyncToGenerator.
  rewrite (bind_Ok get_this _ h (this h) h) by reflexivity.
  rewrite (bind_Ok _ _ _ _ _ Hv1).
  rewrite (bind_Ok _ _ _ _ _ (yield_Resolved _ _ _ _ Herrors)).
  rewrite (bind_Ok _ _ _ _ _ Hv2).
  rewrite (bind_Ok _ _ _ _ _ (yield_Resolved _ _ _ _ Hrelated)).
  reflexivity.
Qed.

(** X4: when a field has no own issue and its related result is not an
    array (a nested Document whose [validate()] resolves to undefined, say),
    [validate()] is rejected with the TypeError of [related.every];
    [isValid()] is rejected with it as well.  With an own issue the related
    result is not inspected and the same field resolves to an error. *)
Theorem validate_needs_array_related `{Runtime} (h h1 h2 : heap)
    (e0 : jsval) (errors : list jsval) (related : jsval) :
  (v <- get_value ;; _validateRelated v) h1 = (Ok (Resolved related), h2) ->
  isArray related = false ->
  ((v <- get_value ;; _validateValue v) h = (Ok (Resolved []), h1) ->
   validate h = (Ok (Rejected (TypeError "related.every is not a function")), h2) /\
   isValid h = (Ok (Rejected (TypeError "related.every is not a function")), h2)) /\
  ((v <- get_value ;; _validateValue v) h = (Ok (Resolved (e0 :: errors)), h1) ->
   exists error, validate h = (Ok (Resolved error), h2) /\
     error = createInvalidFieldError (VString (dollar_name (this h)))
               (VArray (e0 :: errors)) related).
Proof.
  intros Hrelated Harray. split.
  - intros Herrors.
    assert (Hv : validate h =
              (Ok (Rejected (TypeError "related.every is not a function")), h2)).
    { rewrite (validate_after_results h h1 h2 [] related Herrors Hrelated).
      destruct related; try discriminate; reflexivity. }
    split; [exact Hv|].
    unfold isValid, asyncToGenerator, bind, yield. rewrite Hv. reflexivity.
  - intros Herrors. eexists. split; [|reflexivity].
    rewrite (validate_after_results h h1 h2 _ related Herrors Hrelated).
    reflexivity.
Qed.

Lemma validate_needs_array_related_witness :
  let h := Failing.field "item" (VDocument 5) VNull in
  let h2 := snd (validate h) in
  Example.journal (world h2) = [Example.Validated 5] /\
  validate h = (Ok (Rejected (TypeError "related.every is not a function")), h2) /\
  isValid h = (Ok (Rejected (TypeError "related.every is not a function")), h2).
Proof.
  intros h h2. split; [reflexivity|].
  apply (@validate_needs_array_related Failing.runtime h h h2 VNull [] VUndefined).
  - reflexivity.
  - reflexivity.
  - reflexivity.
Defined.

(** X5: when the validator rejects, or throws before returning a promise,
    [_validateValue], [validate()] and [isValid()] are all rejected with
    that very error, nothing is thrown to the caller, and the related
    (nested) validation is not started: the heap is the one the validator
    left. *)
Theorem validate_rejects_as_validator `{Runtime} (h : heap) (d : FieldDefinition)
    (v : jsval) (r : result (promise (list jsval))) (w : W) (e : exn) :
  definition h = (Ok d, h) ->
  get_value h = (Ok v, h) ->
  validator_validate v (def_validate d) (world h) = (r, w) ->
  r = Ok (Rejected e) \/ r = Throw e ->
  let h1 := {| this := this h; typeOptions_types := typeOptions_types h;
               world := w |} in
  _validateValue v h = (Ok (Rejected e), h1) /\
  validate h = (Ok (Rejected e), h1) /\
  isValid h = (Ok (Rejected e), h1).
Proof.
  intros Hd Hv Hrun Hr h1.
  assert (Hown : _validateValue v h = (Ok (Rejected e), h1)).
  { unfold _validateValue, asyncToGenerator.
    rewrite (bind_Ok _ _ _ _ _ Hd). cbv beta zeta.
    unfold yield, lift. rewrite Hrun. destruct Hr as [-> | ->]; reflexivity. }
  assert (Hvalidate : validate h = (Ok (Rejected e), h1)).
  { unfold validate, asyncToGenerator.
    rewrite (bind_Ok get_this _ h (this h) h) by reflexivity.
    rewrite (bind_Ok _ _ _ _ _ Hv).
    erewrite bind_Throw; [reflexivity|].
    unfold yield. rewrite Hown. reflexivity. }
  split; [exact Hown|]. split; [exact Hvalidate|].
  unfold isValid, asyncToGenerator, bind, yield. rewrite Hvalidate. reflexivity.
Qed.

Lemma validate_rejects_as_validator_witness :
  let h := Failing.field "code" (VString "A1") VNull in
  _validateValue (VString "A1") h = (Ok (Rejected Failing.lookup_failed), h) /\
  validate h = (Ok (Rejected Failing.lookup_failed), h) /\
  isValid h = (Ok (Rejected Failing.lookup_failed), h).
Proof.
  intros h.
  apply (@validate_rejects_as_validator Failing.runtime h
           {| def_type := VString "String"; def_get := None; def_set := None;
              def_defaultValue := Literal VUndefined;
              def_validate := VArray [VString "unreachable"] |}
           (VString "A1") (Ok (Rejected Failing.lookup_failed)) (world h)
           Failing.lookup_failed).
  - reflexivity.
  - reflexivity.
  - reflexivity.
  - left. reflexivity.
Defined.

(** X6: once the own issues and the related results have been obtained,
    [isValid()] settles as follows (undefined being absent and an error
    object not).  With an own issue it resolves to false.  With no own issue
    and an array as related result it resolves to true exactly when every
    entry that is not an array, at whatever depth, is absent.  With no own
    issue and a related result that is not an array it is rejected with the
    TypeError of [related.every]. *)
Theorem isValid_settles `{Runtime} (h h1 h2 : heap) (errors : list jsval)
    (related : jsval) :
  isAbsent VUndefined = true ->
  (forall path errors related message code,
     isAbsent (VInvalidFieldError path errors related message code) = false) ->
  (v <- get_value ;; _validateValue v) h = (Ok (Resolved errors), h1) ->
  (v <- get_value ;; _validateRelated v) h1 = (Ok (Resolved related), h2) ->
  isValid h =
    (Ok (match errors, related with
         | _ :: _, _ => Resolved false
         | [], VArray items => Resolved (forallb isAbsent (flat_map leaves items))
         | [], _ => Rejected (TypeError "related.every is not a function")
         end),
     h2).
Proof.
  intros Hundefined Herror Herrors Hrelated.
  unfold isValid, asyncToGenerator, bind at 1, yield.
  rewrite (validate_after_results h h1 h2 errors related Herrors Hrelated).
  unfold asyncToGenerator.
  destruct errors as [|e errors]; simpl.
  - destruct related; try reflexivity.
    change (flat_map leaves items) with (leaves (VArray items)).
    rewrite <- every_item_leaves. simpl.
    unfold bind; simpl. destruct (forallb every_item items); simpl.
    + rewrite Hundefined. reflexivity.
    + unfold createInvalidFieldError, InvalidFieldError; simpl.
      rewrite Herror. reflexivity.
  - unfold bind; simpl. unfold createInvalidFieldError, InvalidFieldError.
    simpl. destruct related; simpl; rewrite Herror; reflexivity.
Qed.

Lemma isValid_settles_witness :
  let invalid := Example.field "name" VNull VNull [] in
  let valid := Example.field "tags" (VArray [VString "a"; VString "b"]) VNull [] in
  let item := Failing.field "item" (VDocument 5) VNull in
  isValid invalid = (Ok (Resolved false), invalid) /\
  isValid valid = (Ok (Resolved true), valid) /\
  isValid item =
    (Ok (Rejected (TypeError "related.every is not a function")),
     snd (validate item)).
Proof.
  intros invalid valid item. split; [|split].
  - apply (@isValid_settles Example.runtime invalid invalid invalid
             [Example.is_required] (VArray [])).
    + reflexivity.
    + intros; reflexivity.
    + reflexivity.
    + reflexivity.
  - apply (@isValid_settles Example.runtime valid valid valid
             [] (VArray [VArray []; VArray []])).
    + reflexivity.
    + intros; reflexivity.
    + reflexivity.
    + reflexivity.
  - apply (@isValid_settles Failing.runtime item item (snd (validate item))
             [] VUndefined).
    + reflexivity.
    + intros; reflexivity.
    + reflexivity.
    + reflexivity.
Defined.

(** ** A field the schema does not declare *)

Lemma definition_missing `{Runtime} (h : heap) :
  dollar_schema_fields (dollar_document (this h)) !! dollar_name (this h) = None ->
  definition h = (Throw (TypeError "Cannot read property of undefined"), h).
Proof.
  intros Hnone. unfold definition, bind, get_this. rewrite Hnone. reflexivity.
Qed.

(** X7: on a Field whose name has no entry in [$schema.fields], every
    accessor and method that reads the definition throws a TypeError and
    leaves the heap as it is: the [value] getter and setter, the
    [defaultValue] getter, [reset()], [clear()], [rollback()], [commit()],
    [equals()] and [isChanged()]; the asynchronous ones, [_validateValue],
    [_validateRelated], [validate()] and [isValid()], return a promise
    rejected with it instead of throwing.  Only [initialValue] can be read.
    The constructor throws as well, for a name the Document does not
    declare. *)
Theorem undeclared_field_throws `{Runtime} (h : heap) (value data : jsval) :
  dollar_schema_fields (dollar_document (this h)) !! dollar_name (this h) = None ->
  let e := TypeError "Cannot read property of undefined" in
  get_value h = (Throw e, h) /\
  set_value value h = (Throw e, h) /\
  get_defaultValue h = (Throw e, h) /\
  reset h = (Throw e, h) /\
  clear h = (Throw e, h) /\
  rollback h = (Throw e, h) /\
  commit h = (Throw e, h) /\
  equals data h = (Throw e, h) /\
  isChanged h = (Throw e, h) /\
  _validateValue value h = (Ok (Rejected e), h) /\
  _validateRelated value h = (Ok (Rejected e), h) /\
  validate h = (Ok (Rejected e), h) /\
  isValid h = (Ok (Rejected e), h) /\
  get_initialValue h = (Ok (_initialValue (this h)), h) /\
  exists blank,
    constructor (dollar_document (this h)) (dollar_name (this h)) h = (Throw e, blank).
Proof.
  intros Hnone e. pose proof (definition_missing h Hnone) as Hd. fold e in Hd.
  assert (Hvalue : get_value h = (Throw e, h))
    by (unfold get_value; apply bind_Throw, Hd).
  assert (Hset : forall v, set_value v h = (Throw e, h))
    by (intros v; unfold set_value; apply bind_Throw, Hd).
  assert (Hdefault : get_defaultValue h = (Throw e, h))
    by (unfold get_defaultValue; apply bind_Throw, Hd).
  assert (Hequals : forall x, equals x h = (Throw e, h))
    by (intros x; unfold equals; apply bind_Throw, Hvalue).
  assert (Hown : forall v, _validateValue v h = (Ok (Rejected e), h)).
  { intros v. unfold _validateValue, asyncToGenerator.
    rewrite (bind_Throw _ _ _ _ _ Hd). reflexivity. }
  assert (Hvalidate : validate h = (Ok (Rejected e), h)).
  { unfold validate, asyncToGenerator.
    rewrite (bind_Ok get_this _ h (this h) h) by reflexivity.
    rewrite (bind_Throw _ _ _ _ _ Hvalue). reflexivity. }
  repeat split.
  - exact Hvalue.
  - apply Hset.
  - exact Hdefault.
  - unfold reset. apply bind_Throw, Hdefault.
  - unfold clear. apply bind_Throw, Hset.
  - unfold rollback.
    rewrite (bind_Ok get_initialValue _ h (_initialValue (this h)) h) by reflexivity.
    apply bind_Throw, Hset.
  - unfold commit. apply bind_Throw, Hvalue.
  - apply Hequals.
  - unfold isChanged.
    rewrite (bind_Ok get_initialValue _ h (_initialValue (this h)) h) by reflexivity.
    apply bind_Throw, Hequals.
  - apply Hown.
  - unfold _validateRelated, asyncToGenerator.
    rewrite (bind_Throw _ _ _ _ _ Hd). reflexivity.
  - exact Hvalidate.
  - unfold isValid, asyncToGenerator, bind, yield. rewrite Hvalidate. reflexivity.
  - eexists. unfold constructor.
    erewrite bind_Ok by reflexivity.
    apply bind_Throw. unfold get_defaultValue. apply bind_Throw.
    unfold definition, bind, get_this. simpl. rewrite Hnone. reflexivity.
Qed.

Lemma undeclared_field_throws_witness :
  let h := Example.field "ghost" (VString "boo") VNull [] in
  let e := TypeError "Cannot read property of undefined" in
  set_value VNull h = (Throw e, h) /\
  validate h = (Ok (Rejected e), h) /\
  get_initialValue h = (Ok VNull, h).
Proof.
  intros h e.
  destruct (@undeclared_field_throws Example.runtime h VNull VNull eq_refl)
    as (_ & Hset & _ & _ & _ & _ & _ & _ & _ & _ & _ & Hvalidate & _ & Hinitial & _).
  split; [exact Hset|]. split; [exact Hvalidate|exact Hinitial].
Defined.

(** ** What the methods leave alone, continued *)

Ltac keep_side :=
  unfold same_types, same_identity, same_value; intros; simpl;
  repeat match goal with H : _ /\ _ |- _ => destruct H end;
  repeat split; congruence.

Lemma frame_write_initialValue `{Runtime} (R : heap -> heap -> Prop) v :
  (forall h c,
     R h {| this := {| dollar_document := dollar_document (this h);
                       dollar_name := dollar_name (this h);
                       _value := _value (this h);
                       _initialValue := c |};
            typeOptions_types := typeOptions_types h;
            world := world h |}) ->
  frame R (write_initialValue v).
Proof. intros HR h. apply HR. Qed.

Lemma frame_commit `{Runtime} (R : heap -> heap -> Prop) :
  (forall h, R h h) ->
  (forall h1 h2 h3, R h1 h2 -> R h2 h3 -> R h1 h3) ->
  (forall h w,
     R h {| this := this h; typeOptions_types := typeOptions_types h; world := w |}) ->
  (forall h c,
     R h {| this := {| dollar_document := dollar_document (this h);
                       dollar_name := dollar_name (this h);
                       _value := _value (this h);
                       _initialValue := c |};
            typeOptions_types := typeOptions_types h;
            world := world h |}) ->
  frame R commit.
Proof.
  intros R_refl R_trans R_world R_initial.
  apply (frame_bind R R_trans); [apply (frame_get_value R R_refl R_trans)|]. intros v.
  apply (frame_bind R R_trans); [apply (frame_lift R R_world)|]. intros _.
  apply (frame_bind R R_trans); [apply (frame_get_value R R_refl R_trans)|]. intros v'.
  apply (frame_bind R R_trans); [apply (frame_lift R R_world)|]. intros c.
  apply (frame_bind R R_trans); [apply frame_write_initialValue, R_initial|]. intros _.
  apply (frame_get_this R R_refl).
Qed.

Lemma frame_isValid `{Runtime} (R : heap -> heap -> Prop) :
  (forall h, R h h) ->
  (forall h1 h2 h3, R h1 h2 -> R h2 h3 -> R h1 h3) ->
  (forall h w,
     R h {| this := this h; typeOptions_types := typeOptions_types h; world := w |}) ->
  frame R isValid.
Proof.
  intros R_refl R_trans R_world.
  apply (frame_asyncToGenerator R).
  apply (frame_bind R R_trans).
  - apply (frame_yield R), (frame_validate R R_refl R_trans R_world).
  - intros r. apply (frame_ret R R_refl).
Qed.

(** X8: however they end, [validate()], [isValid()], [commit()], [equals()]
    and [isChanged()] never write the type table of the schema (only the
    coercion does); [commit()] and the [defaultValue] getter never change
    [_value]; and no accessor or method ever changes [$document] or
    [$name]. *)
Theorem methods_keep_table_value_identity `{Runtime} (h : heap)
    (value data : jsval) :
  (same_types h (snd (validate h)) /\
   same_types h (snd (isValid h)) /\
   same_types h (snd (commit h)) /\
   same_types h (snd (equals data h)) /\
   same_types h (snd (isChanged h))) /\
  (same_value h (snd (commit h)) /\
   same_value h (snd (get_defaultValue h))) /\
  (same_identity h (snd (set_value value h)) /\
   same_identity h (snd (get_defaultValue h)) /\
   same_identity h (snd (reset h)) /\
   same_identity h (snd (clear h)) /\
   same_identity h (snd (rollback h)) /\
   same_identity h (snd (commit h)) /\
   same_identity h (snd (validate h)) /\
   same_identity h (snd (isValid h))).
Proof.
  split; [|split].
  - split; [apply (frame_validate same_types); keep_side|].
    split; [apply (frame_isValid same_types); keep_side|].
    split; [apply (frame_commit same_types); keep_side|].
    split; [apply (frame_equals same_types); keep_side|].
    apply (frame_isChanged same_types); keep_side.
  - split; [apply (frame_commit same_value); keep_side|].
    apply (frame_get_defaultValue same_value); keep_side.
  - split; [apply (frame_set_value same_identity); keep_side|].
    split; [apply (frame_get_defaultValue same_identity); keep_side|].
    split; [apply (frame_reset same_identity); keep_side|].
    split; [apply (frame_clear same_identity); keep_side|].
    split; [apply (frame_rollback same_identity); keep_side|].
    split; [apply (frame_commit same_identity); keep_side|].
    split; [apply (frame_validate same_identity); keep_side|].
    apply (frame_isValid same_identity); keep_side.
Qed.

(** ** Assignment *)

Lemma bind_Throw_inv {S A B} (m : M S A) (k : A -> M S B) s e s' :
  bind m k s = (Throw e, s') ->
  m s = (Throw e, s') \/ exists a s1, m s = (Ok a, s1) /\ k a s1 = (Throw e, s').
Proof.
  unfold bind. destruct (m s) as [[a|e1] s1]; intros Hk.
  - right. exists a, s1. split; [reflexivity|assumption].
  - left. injection Hk as -> ->. reflexivity.
Qed.

Lemma set_value_Throw `{Runtime} (h h' : heap) (value : jsval) (e : exn) :
  set_value value h = (Throw e, h') -> this h' = this h.
Proof.
  intros Hset. unfold set_value in Hset.
  apply bind_Throw_inv in Hset as [Hd | (d & h1 & Hd & Hset)].
  - apply definition_heap in Hd. subst h'. reflexivity.
  - pose proof (definition_heap _ _ _ Hd) as ->.
    apply bind_Throw_inv in Hset as [Hcast | (c & h2 & _ & Hset)].
    + rewrite (snd_run _ _ _ _ Hcast).
      apply (frame__cast same_this); frame_side.
    + unfold bind, get_this, write_value in Hset. discriminate.
Qed.

(** X9: an assignment that throws (the definition is missing, the coercion
    or the constructor of a nested Document throws) has not assigned: the
    Field object, [_value] included, is what it was before.  The same holds
    of [reset()], [clear()] and [rollback()] when they throw. *)
Theorem failed_assignment_keeps_field `{Runtime} (h h' : heap) (value : jsval)
    (e : exn) :
  (set_value value h = (Throw e, h') -> this h' = this h) /\
  (reset h = (Throw e, h') -> this h' = this h) /\
  (clear h = (Throw e, h') -> this h' = this h) /\
  (rollback h = (Throw e, h') -> this h' = this h).
Proof.
  repeat split.
  - apply set_value_Throw.
  - intros Hreset. unfold reset in Hreset.
    apply bind_Throw_inv in Hreset as [Hdefault | (v & h1 & Hdefault & Hreset)].
    + rewrite (snd_run _ _ _ _ Hdefault).
      apply (frame_get_defaultValue same_this); frame_side.
    + assert (Hthis : this h1 = this h).
      { rewrite (snd_run _ _ _ _ Hdefault).
        apply (frame_get_defaultValue same_this); frame_side. }
      apply bind_Throw_inv in Hreset as [Hset | (x & h2 & _ & Hthrow)].
      * rewrite <- Hthis. eapply set_value_Throw, Hset.
      * discriminate.
  - intros Hclear. unfold clear in Hclear.
    apply bind_Throw_inv in Hclear as [Hset | (x & h2 & _ & Hthrow)].
    + eapply set_value_Throw, Hset.
    + discriminate.
  - intros Hrollback. unfold rollback in Hrollback.
    apply bind_Throw_inv in Hrollback as [Hinitial | (v & h1 & Hinitial & Hrollback)].
    + discriminate.
    + injection Hinitial as _ <-.
      apply bind_Throw_inv in Hrollback as [Hset | (x & h2 & _ & Hthrow)].
      * eapply set_value_Throw, Hset.
      * discriminate.
Qed.

Lemma failed_assignment_keeps_field_witness :
  let h := Failing.field "item" VNull VNull in
  let raw := VObject [("sku", VNumber 12)] in
  fst (set_value raw h) = Throw Failing.cannot_construct /\
  this (snd (set_value raw h)) = this h.
Proof.
  intros h raw. split; [reflexivity|].
  destruct (@failed_assignment_keeps_field Failing.runtime h
              (snd (set_value raw h)) raw Failing.cannot_construct) as (Hset & _).
  apply Hset. reflexivity.
Defined.


(** X11: after an assignment that returned, [_value] is the [set] transform
    of what the coercion of the assigned value gave, and the [value] getter
    reads the [get] transform of it, leaving the heap as the assignment left
    it: without transforms, reading gives back the coerced value. *)
Theorem assigned_value_reads_back `{Runtime} (h h' : heap) (d : FieldDefinition)
    (value : jsval) :
  definition h = (Ok d, h) ->
  set_value value h = (Ok tt, h') ->
  exists c h1,
    _cast value (def_type d) h = (Ok c, h1) /\
    world h' = world h1 /\
    _value (this h') = transform (def_set d) (this h) c /\
    get_value h' =
      (Ok (transform (def_get d) (this h) (transform (def_set d) (this h) c)), h') /\
    (def_set d = None -> def_get d = None -> get_value h' = (Ok c, h')).
Proof.
  intros Hd Hset. unfold set_value in Hset.
  rewrite (bind_Ok _ _ _ _ _ Hd) in Hset.
  apply bind_inv in Hset as (c & h1 & Hcast & Hset).
  assert (Hthis : this h1 = this h).
  { rewrite (snd_run _ _ _ _ Hcast). apply (frame__cast same_this); frame_side. }
  unfold bind, get_this, write_value in Hset. injection Hset as <-.
  assert (Hread : get_value
            {| this := {| dollar_document := dollar_document (this h1);
                          dollar_name := dollar_name (this h1);
                          _value := transform (def_set d) (this h1) c;
                          _initialValue := _initialValue (this h1) |};
               typeOptions_types := typeOptions_types h1;
               world := world h1 |} =
            (Ok (transform (def_get d) (this h) (transform (def_set d) (this h) c)),
             {| this := {| dollar_document := dollar_document (this h1);
                           dollar_name := dollar_name (this h1);
                           _value := transform (def_set d) (this h1) c;
                           _initialValue := _initialValue (this h1) |};
                typeOptions_types := typeOptions_types h1;
                world := world h1 |})).
  { apply definition_inv in Hd as (_ & Hd).
    unfold get_value, definition, bind, get_this, ret. simpl.
    rewrite Hthis, Hd. unfold transform. rewrite !own_property_document. reflexivity. }
  exists c, h1. simpl. rewrite Hthis.
  split; [assumption|]. split; [reflexivity|]. split; [reflexivity|].
  rewrite Hthis in Hread. split; [exact Hread|].
  intros Hnoset Hnoget. rewrite Hread, Hnoset, Hnoget. reflexivity.
Qed.

Lemma assigned_value_reads_back_witness :
  let h := Example.field "tags" VNull VNull [] in
  let h' := snd (set_value (VArray [VString "a"; VNull]) h) in
  get_value h' = (Ok (VArray [VString "a"; VNull]), h').
Proof.
  intros h h'.
  destruct (@assigned_value_reads_back Example.runtime h h'
              {| def_type := VArray [VString "String"]; def_get := None;
                 def_set := None; def_defaultValue := Literal VUndefined;
                 def_validate := VArray [VString "presence"] |}
              (VArray [VString "a"; VNull]) eq_refl eq_refl)
    as (c & h1 & Hcast & _ & _ & _ & Hread).
  rewrite (Hread eq_refl eq_refl).
  assert (Hc : Ok c = Ok (VArray [VString "a"; VNull])).
  { change (Ok c) with (fst (Ok c, h1)). rewrite <- Hcast. reflexivity. }
  injection Hc as ->. reflexivity.
Defined.

(** X12: on a field without [get] and [set] transforms whose coercion gives
    its initial value back unchanged, [rollback()] returns, and right after
    it [isChanged()] is false and [equals(initialValue)] is true (a value
    is deep-equal to itself). *)
Theorem rollback_then_unchanged `{Runtime} (h : heap) (d : FieldDefinition) :
  (forall w v, deepEqual w v v = true) ->
  definition h = (Ok d, h) ->
  def_set d = None ->
  def_get d = None ->
  (forall types w, fst (cast (_initialValue (this h)) (def_type d) types w)
                   = Ok (_initialValue (this h))) ->
  exists f h',
    rollback h = (Ok f, h') /\
    isChanged h' = (Ok false, h') /\
    equals (_initialValue (this h)) h' = (Ok true, h').
Proof.
  intros equal_refl Hd Hset Hget Hcast.
  set (c := _initialValue (this h)) in *.
  destruct (cast c (def_type d)
              (<["Schema" := Schema_resolver (this h) (def_type d)]>
                 (typeOptions_types h)) (world h)) as [r w'] eqn:Hrun.
  pose proof (Hcast (<["Schema" := Schema_resolver (this h) (def_type d)]>
                       (typeOptions_types h)) (world h)) as Hr.
  rewrite Hrun in Hr. simpl in Hr. subst r.
  unfold rollback.
  rewrite (bind_Ok get_initialValue _ h c h) by reflexivity.
  rewrite (bind_Ok _ _ _ _ _ (set_value_run h d c c w' Hd Hrun)).
  eexists _, _. split; [reflexivity|].
  apply definition_inv in Hd as (_ & Hd).
  assert (Hequals : equals c
            {| this := {| dollar_document := dollar_document (this h);
                          dollar_name := dollar_name (this h);
                          _value := transform (def_set d) (this h) c;
                          _initialValue := _initialValue (this h) |};
               typeOptions_types :=
                 <["Schema" := Schema_resolver (this h) (def_type d)]>
                   (typeOptions_types h);
               world := w' |} =
            (Ok true,
             {| this := {| dollar_document := dollar_document (this h);
                           dollar_name := dollar_name (this h);
                           _value := transform (def_set d) (this h) c;
                           _initialValue := _initialValue (this h) |};
                typeOptions_types :=
                  <["Schema" := Schema_resolver (this h) (def_type d)]>
                    (typeOptions_types h);
                world := w' |})).
  { unfold equals, get_value, definition, bind, get_this, ret. simpl.
    rewrite Hd, Hset, Hget. simpl. rewrite equal_refl. reflexivity. }
  split; [|exact Hequals].
  unfold isChanged.
  erewrite (bind_Ok get_initialValue) by reflexivity.
  simpl. fold c. rewrite (bind_Ok _ _ _ _ _ Hequals). reflexivity.
Qed.

Lemma rollback_then_unchanged_witness :
  let h := Example.field "name" (VString "Jane") (VString "John") [] in
  fst (isChanged h) = Ok true /\
  exists f h',
    rollback h = (Ok f, h') /\
    isChanged h' = (Ok false, h') /\
    equals (VString "John") h' = (Ok true, h').
Proof.
  intros h. split; [reflexivity|].
  apply (@rollback_then_unchanged Example.runtime h
           {| def_type := VString "String"; def_get := None; def_set := None;
              def_defaultValue := Literal VUndefined;
              def_validate := VArray [VString "presence"] |}).
  - intros w v. apply jsval_eqb_refl.
  - reflexivity.
  - reflexivity.
  - reflexivity.
  - intros types w. reflexivity.
Defined.

(** X13: on a field without [set] transform whose coercion gives back
    unchanged what the [defaultValue] getter returns, [reset()] returns and
    leaves that default in [_value]; [_initialValue] is not touched. *)
Theorem reset_stores_default `{Runtime} (h h1 : heap) (d : FieldDefinition)
    (v : jsval) :
  definition h = (Ok d, h) ->
  def_set d = None ->
  get_defaultValue h = (Ok v, h1) ->
  (forall types w, fst (cast v (def_type d) types w) = Ok v) ->
  exists f h',
    reset h = (Ok f, h') /\
    _value (this h') = v /\
    _initialValue (this h') = _initialValue (this h).
Proof.
  intros Hd Hset Hdefault Hcast.
  assert (Hthis : this h1 = this h).
  { rewrite (snd_run _ _ _ _ Hdefault).
    apply (frame_get_defaultValue same_this); frame_side. }
  pose proof (definition_same_this h h1 d Hd Hthis) as Hd1.
  destruct (cast v (def_type d)
              (<["Schema" := Schema_resolver (this h1) (def_type d)]>
                 (typeOptions_types h1)) (world h1)) as [r w'] eqn:Hrun.
  pose proof (Hcast (<["Schema" := Schema_resolver (this h1) (def_type d)]>
                       (typeOptions_types h1)) (world h1)) as Hr.
  rewrite Hrun in Hr. simpl in Hr. subst r.
  unfold reset.
  rewrite (bind_Ok _ _ _ _ _ Hdefault).
  rewrite (bind_Ok _ _ _ _ _ (set_value_run h1 d v v w' Hd1 Hrun)).
  eexists _, _. split; [reflexivity|]. simpl.
  rewrite Hset, Hthis. split; reflexivity.
Qed.

Lemma reset_stores_default_witness :
  let h := Example.field "label" (VString "edited") VNull [] in
  exists f h',
    reset h = (Ok f, h') /\
    _value (this h') = VString "no document" /\
    _initialValue (this h') = VNull.
Proof.
  intros h.
  apply (@reset_stores_default Example.runtime h (snd (get_defaultValue h))
           (@Build_FieldDefinition Example.runtime (VString "String") None None
              (@Function Example.runtime Example.tells_argument) VUndefined)
           (VString "no document")).
  - reflexivity.
  - reflexivity.
  - reflexivity.
  - intros types w. reflexivity.
Defined.

(** ** Commit that fails *)

(** X14: a [commit()] that throws (a nested [commit()] throws, the deep copy
    throws, the value holds a plain object with a [commit] property that
    cannot be called) has taken no snapshot: the Field object,
    [_initialValue] included, and the type table are what they were. *)
Theorem failed_commit_keeps_snapshot `{Runtime} (h h' : heap) (e : exn) :
  commit h = (Throw e, h') ->
  this h' = this h /\ typeOptions_types h' = typeOptions_types h.
Proof.
  intros Hcommit. unfold commit in Hcommit.
  apply bind_Throw_inv in Hcommit as [Hv | (v & h0 & Hv & Hcommit)].
  { apply get_value_heap in Hv. subst h'. split; reflexivity. }
  pose proof (get_value_heap _ _ _ Hv) as ->.
  apply bind_Throw_inv in Hcommit as [Hnested | ([] & h1 & Hnested & Hcommit)].
  { unfold lift in Hnested. destruct (_commitRelated v (world h)).
    injection Hnested as _ <-. split; reflexivity. }
  unfold lift in Hnested. destruct (_commitRelated v (world h)) as [r1 w1].
  injection Hnested as _ <-.
  apply bind_Throw_inv in Hcommit as [Hv' | (v' & h0 & Hv' & Hcommit)].
  { apply get_value_heap in Hv'. subst h'. split; reflexivity. }
  pose proof (get_value_heap _ _ _ Hv') as ->.
  apply bind_Throw_inv in Hcommit as [Hcopy | (c & h2 & _ & Hcommit)].
  { unfold lift in Hcopy. simpl in Hcopy. destruct (cloneData v' w1).
    injection Hcopy as _ <-. split; reflexivity. }
  apply bind_Throw_inv in Hcommit as [Hwrite | (x & h3 & _ & Hthrow)];
    discriminate.
Qed.

Lemma failed_commit_keeps_snapshot_witness :
  let mixed := VArray [VDocument 5; VObject [("commit", VBoolean true)]; VDocument 6] in
  let h := Example.field "tags" mixed VNull [] in
  fst (commit h) = Throw (TypeError "data.commit is not a function") /\
  Example.journal (world (snd (commit h))) = [Example.Committed 5] /\
  this (snd (commit h)) = this h /\
  typeOptions_types (snd (commit h)) = typeOptions_types h.
Proof.
  intros mixed h.
  split; [reflexivity|]. split; [reflexivity|].
  apply (@failed_commit_keeps_snapshot Example.runtime h (snd (commit h))
           (TypeError "data.commit is not a function")).
  reflexivity.
Defined.

(** ** Validation of a field without nested content *)

(** X15: for a field whose declared type is not a Schema and whose value and
    type are not both arrays (a scalar field; an array field holding null),
    [validate()] depends on the validator alone: when the validator
    resolves to a list of issues, [validate()] resolves to undefined if the
    list is empty and otherwise to an InvalidFieldError with the name of the
    field as path, the issues, and an empty list of related results; no
    other object is called. *)
Theorem validate_without_related `{Runtime} (h : heap) (d : FieldDefinition)
    (v : jsval) (errors : list jsval) (w : W) :
  definition h = (Ok d, h) ->
  get_value h = (Ok v, h) ->
  instanceof_Schema (def_type d) = false ->
  isArray v && isArray (def_type d) = false ->
  validator_validate v (def_validate d) (world h) = (Ok (Resolved errors), w) ->
  validate h =
    (Ok (Resolved
           (match errors with
            | [] => VUndefined
            | _ :: _ =>
                VInvalidFieldError (VString (dollar_name (this h))) (VArray errors)
                  (VArray []) (VString "Field validation failed") (VNumber 422)
            end)),
     {| this := this h; typeOptions_types := typeOptions_types h; world := w |}).
Proof.
  intros Hd Hv Hschema Harrays Hrun.
  set (h1 := {| this := this h; typeOptions_types := typeOptions_types h;
                world := w |}).
  assert (Hd1 : definition h1 = (Ok d, h1))
    by (apply (definition_same_this h); [assumption|reflexivity]).
  assert (Hv1 : get_value h1 = (Ok v, h1))
    by (apply (get_value_same h); [assumption|reflexivity..]).
  assert (Hown : (x <- get_value ;; _validateValue x) h = (Ok (Resolved errors), h1)).
  { rewrite (bind_Ok _ _ _ _ _ Hv). unfold _validateValue, asyncToGenerator.
    rewrite (bind_Ok _ _ _ _ _ Hd). cbv beta zeta.
    unfold yield, lift. rewrite Hrun. reflexivity. }
  assert (Hrelated : (x <- get_value ;; _validateRelated x) h1
                     = (Ok (Resolved (VArray [])), h1)).
  { rewrite (bind_Ok _ _ _ _ _ Hv1). unfold _validateRelated, asyncToGenerator.
    rewrite (bind_Ok _ _ _ _ _ Hd1). cbv beta zeta.
    rewrite Hschema, andb_false_r, Harrays. reflexivity. }
  rewrite (validate_after_results h h1 h1 errors (VArray []) Hown Hrelated).
  destruct errors; reflexivity.
Qed.

Lemma validate_without_related_witness :
  let missing := Example.field "name" VNull VNull [] in
  let given := Example.field "name" (VString "John") VNull [] in
  validate given = (Ok (Resolved VUndefined), given) /\
  validate missing =
    (Ok (Resolved (VInvalidFieldError (VString "name")
                     (VArray [Example.is_required]) (VArray [])
                     (VString "Field validation failed") (VNumber 422))),
     missing).
Proof.
  intros missing given.
  pose (d := {| def_type := VString "String"; def_get := None; def_set := None;
                def_defaultValue := Literal VUndefined;
                def_validate := VArray [VString "presence"] |}
             : @FieldDefinition Example.runtime).
  split.
  - apply (@validate_without_related Example.runtime given d (VString "John")
             [] (world given)); reflexivity.
  - apply (@validate_without_related Example.runtime missing d VNull
             [Example.is_required] (world missing)); reflexivity.
Defined.
